(** * Dependency extraction and resolution of JEXL expressions

    A shallow embedding of [addon/lib/dependencies.js]: the extraction of
    dependency slugs from the transforms of a parsed JEXL expression
    ([getDependenciesFromJexl]), the informative field lookup ([findField])
    and the computed properties [dependencies] and
    [nestedDependencyParents]. *)

From Stdlib Require Import List String Ascii Bool FinFun Lia.
Import ListNotations.

Local Open Scope string_scope.
Local Open Scope list_scope.

(** ** JavaScript values and exceptions *)

Module Js.

(** The primitive values that flow through the code.  Numeric literals are
    left out: they are never slugs and their rendering is a matter of
    floating point. *)
Inductive Value : Type :=
| Undefined
| Null
| Bool (b : bool)
| Str (s : string).

Definition Value_eq_dec (x y : Value) : {x = y} + {x <> y}.
Proof. decide equality; [apply Bool.bool_dec | apply string_dec]. Defined.

(** [Boolean(v)] *)
Definition truthy (v : Value) : bool :=
  match v with
  | Undefined | Null => false
  | Bool b => b
  | Str s => negb (s =? "")
  end.

(** [`${v}`] *)
Definition toString (v : Value) : string :=
  match v with
  | Undefined => "undefined"
  | Null => "null"
  | Bool true => "true"
  | Bool false => "false"
  | Str s => s
  end.

(** What a [throw] carries. *)
Inductive Error : Type :=
| TypeError
| SyntaxError (message : string)
| AssertionFailed (message : string).

Inductive Result (A : Type) : Type :=
| Ok (a : A)
| Throw (e : Error).

Arguments Ok {A} a.
Arguments Throw {A} e.

Definition bind {A B} (r : Result A) (k : A -> Result B) : Result B :=
  match r with
  | Ok a => k a
  | Throw e => Throw e
  end.

(** [xs.map(f)] with a callback that may throw. *)
Fixpoint mapR {A B} (f : A -> Result B) (xs : list A) : Result (list B) :=
  match xs with
  | [] => Ok []
  | x :: xs' =>
      bind (f x) (fun y => bind (mapR f xs') (fun ys => Ok (y :: ys)))
  end.

(** [xs.filter(p)] with a predicate that may throw. *)
Fixpoint filterR {A} (p : A -> Result bool) (xs : list A) : Result (list A) :=
  match xs with
  | [] => Ok []
  | x :: xs' =>
      bind (p x) (fun b =>
      bind (filterR p xs') (fun ys => Ok (if b then x :: ys else ys)))
  end.

(** [[...new Set(xs)]]: a [Set] keeps the first occurrence of every value
    and iterates in insertion order. *)
Definition setAdd (seen : list Value) (v : Value) : list Value :=
  if in_dec Value_eq_dec v seen then seen else seen ++ [v].

Definition setOf (xs : list Value) : list Value :=
  fold_left setAdd xs [].

(** [s.split(".")]: the pieces between the dots; there is always a first
    piece. *)
Fixpoint split (sep : ascii) (s : string) : string * list string :=
  match s with
  | EmptyString => ("", [])
  | String c rest =>
      let (first, others) := split sep rest in
      if Ascii.eqb c sep
      then ("", first :: others)
      else (String c first, others)
  end.

(** [s.includes(c)] *)
Fixpoint includes (c : ascii) (s : string) : bool :=
  match s with
  | EmptyString => false
  | String c' rest => Ascii.eqb c' c || includes c rest
  end.

End Js.

Import Js.

Notation "x <- c1 ;; c2" := (Js.bind c1 (fun x => c2))
  (at level 61, c1 at next level, right associativity).

(** ** The expression tree *)

(** A node of type ["FunctionCall"] is either a transform, [subject|name(...)],
    whose subject is its first argument, or the call of a function,
    [name(...)]; the two differ in their [pool] only. *)
Inductive Pool : Type :=
| Transforms
| Functions.

(** A node of the tree the parser returns.  The source reads four
    properties of a node: [type], [name], [args] and [value].  A node of any
    type other than ["Literal"] and ["FunctionCall"] is only descended
    into. *)
#[warnings="-register-all"] Inductive Node : Type :=
| Literal (value : Js.Value)
| FunctionCall (pool : Pool) (name : string) (args : list Node)
| Other (type : string) (children : list Node).

Section NodeInduction.
Variable P : Node -> Prop.
Hypothesis HLiteral : forall v, P (Literal v).
Hypothesis HFunctionCall :
  forall pool name args, Forall P args -> P (FunctionCall pool name args).
Hypothesis HOther :
  forall type children, Forall P children -> P (Other type children).

Fixpoint Node_nested_ind (n : Node) : P n :=
  let fix all (ns : list Node) : Forall P ns :=
    match ns with
    | [] => Forall_nil P
    | m :: ms => Forall_cons m (Node_nested_ind m) (all ms)
    end in
  match n with
  | Literal v => HLiteral v
  | FunctionCall pool name args => HFunctionCall pool name args (all args)
  | Other type children => HOther type children (all children)
  end.
End NodeInduction.

(** [node.value] *)
Definition node_value (n : Node) : Js.Value :=
  match n with
  | Literal v => v
  | _ => Undefined
  end.

(** [node.type === "FunctionCall" && node.name === "answer"]: the pool is not
    looked at. *)
Definition isAnswerCall (n : Node) : bool :=
  match n with
  | FunctionCall _ name _ => name =? "answer"
  | _ => false
  end.

(** A node that is an answer transform, and not the call of a function named
    [answer]. *)
Definition isAnswerTransformNode (n : Node) : bool :=
  match n with
  | FunctionCall Transforms name _ => name =? "answer"
  | _ => false
  end.

(** What [getTransforms] yields for a transform node. *)
Record Transform : Type := mkTransform {
  name : string;
  args : list Node
}.

(** Modelled from the spec: [getTransforms] of [utils/jexl] is not part of
    the sources at hand.  It returns every transform node reachable from the
    root, at any depth, in pre-order, the children of a node in source
    order.  The call of a function is not a transform: it is descended into
    like any other node. *)
Fixpoint getTransforms (tree : Node) : list Transform :=
  match tree with
  | Literal _ => []
  | FunctionCall Transforms name args =>
      mkTransform name args :: flat_map getTransforms args
  | FunctionCall Functions _ args => flat_map getTransforms args
  | Other _ children => flat_map getTransforms children
  end.

(** The parsing context of a document: the source only ever hands it to
    [getAST] together with the expression text. *)
Record Jexl : Type := mkJexl {
  parse : string -> Js.Result Node
}.

(** Modelled from the spec: [getAST] of [utils/jexl] is not part of the
    sources at hand.  It is the parser interface
    [parse(context, expressionText) -> Node], which may fail with a syntax
    error. *)
Definition getAST (jexl : Jexl) (expression : string) : Js.Result Node :=
  parse jexl expression.

(** ** Extraction of the dependency slugs *)

(** [xs[i]] followed by a property access: reading a property of
    [undefined] throws. *)
Definition at_index {A} (xs : list A) (i : nat) : Js.Result A :=
  match nth_error xs i with
  | Some x => Ok x
  | None => Throw TypeError
  end.

(** [node.args] followed by an index: only a ["FunctionCall"] has [args]. *)
Definition node_args (n : Node) : Js.Result (list Node) :=
  match n with
  | FunctionCall _ _ args => Ok args
  | _ => Throw TypeError
  end.

(** [transform.name === "answer"] *)
Definition isAnswerTransform (transform : Transform) : bool :=
  name transform =? "answer".

(** [transform.name === "mapby" && transform.args[0].type === "FunctionCall"
    && transform.args[0].name === "answer"] *)
Definition isMapbyTransform (transform : Transform) : Js.Result bool :=
  if name transform =? "mapby"
  then subject <- at_index (args transform) 0 ;; Ok (isAnswerCall subject)
  else Ok false.

(** [transform.args[0].value] *)
Definition answerSlug (transform : Transform) : Js.Result Js.Value :=
  subject <- at_index (args transform) 0 ;; Ok (node_value subject).

(** The two values a mapby transform is rendered from:
    [transform.args[0].args[0].value] and [transform.args[1].value]. *)
Definition mapbyOperands (transform : Transform)
  : Js.Result (Js.Value * Js.Value) :=
  subject <- at_index (args transform) 0 ;;
  subjectArgs <- node_args subject ;;
  parent <- at_index subjectArgs 0 ;;
  child <- at_index (args transform) 1 ;;
  Ok (node_value parent, node_value child).

(** [`${parent}.${child}`] *)
Definition dotted (parent child : Js.Value) : Js.Value :=
  Str (toString parent ++ "." ++ toString child).

(** [`${transform.args[0].args[0].value}.${transform.args[1].value}`] *)
Definition mapbySlug (transform : Transform) : Js.Result Js.Value :=
  operands <- mapbyOperands transform ;;
  Ok (dotted (fst operands) (snd operands)).

(** The array the [Set] is built from: the slugs of the answer transforms
    followed by the dotted slugs of the mapby transforms. *)
Definition discoveredSlugs (allTransforms : list Transform)
  : Js.Result (list Js.Value) :=
  let answerTransforms := filter isAnswerTransform allTransforms in
  mapbyTransforms <- filterR isMapbyTransform allTransforms ;;
  answerSlugs <- mapR answerSlug answerTransforms ;;
  mapbySlugs <- mapR mapbySlug mapbyTransforms ;;
  Ok (answerSlugs ++ mapbySlugs).

(** The body of [getDependenciesFromJexl] once the transforms are known. *)
Definition extractDependencies (allTransforms : list Transform)
  : Js.Result (list Js.Value) :=
  discovered <- discoveredSlugs allTransforms ;;
  Ok (setOf discovered).

Definition getDependenciesFromJexl (jexl : Jexl) (expression : string)
  : Js.Result (list Js.Value) :=
  tree <- getAST jexl expression ;;
  extractDependencies (getTransforms tree).

(** *** The running example *)

Definition example_expression : string :=
  "'foo'|answer in 'bar'|answer|mapby('column')".

(** The tree of [example_expression]: a pipe binds tighter than [in]. *)
Definition example_tree : Node :=
  Other "BinaryExpression"
    [ FunctionCall Transforms "answer" [Literal (Str "foo")];
      FunctionCall Transforms "mapby"
        [ FunctionCall Transforms "answer" [Literal (Str "bar")];
          Literal (Str "column") ] ].

Definition foo_expression : string := "'foo'|answer".

Definition foo_tree : Node :=
  FunctionCall Transforms "answer" [Literal (Str "foo")].

Definition twice_expression : string := "'foo'|answer == 'foo'|answer".

Definition twice_tree : Node :=
  Other "BinaryExpression" [foo_tree; foo_tree].

(** A mapby applied to the call of a function named [answer]. *)
Definition function_expression : string := "answer('bar')|mapby('column')".

Definition function_tree : Node :=
  FunctionCall Transforms "mapby"
    [ FunctionCall Functions "answer" [Literal (Str "bar")];
      Literal (Str "column") ].

(** An answer transform on a literal that holds a dot. *)
Definition dotted_expression : string := "'bar.column'|answer".

Definition dotted_tree : Node :=
  FunctionCall Transforms "answer" [Literal (Str "bar.column")].

(** A parsing context that knows the expressions above. *)
Definition example_jexl : Jexl :=
  mkJexl (fun text =>
    if text =? example_expression then Ok example_tree
    else if text =? foo_expression then Ok foo_tree
    else if text =? twice_expression then Ok twice_tree
    else if text =? function_expression then Ok function_tree
    else if text =? dotted_expression then Ok dotted_tree
    else Throw (SyntaxError text)).

(** ** Documents and fields *)

(** Modelled from the spec: the classes of documents and fields are not part
    of the sources at hand.  A field has an identity and a value; the value
    of a table field is the sequence of its rows, each a document of its
    own, the value of any other field is a primitive.  A document has an
    identity ([uuid]), a parsing context ([jexl]) and a lookup of its fields
    by slug ([document.findField(slug)], absent when there is no such
    field); the lookup is left open. *)
Inductive Field : Type :=
| mkField (pk : string) (value : FieldValue)
with FieldValue : Type :=
| Scalar (v : Js.Value)
| Rows (rows : list Document)
with Document : Type :=
| mkDocument (uuid : string) (jexl : Jexl) (fieldOf : string -> option Field).

Definition field_pk (field : Field) : string :=
  match field with mkField pk _ => pk end.

Definition field_value (field : Field) : FieldValue :=
  match field with mkField _ value => value end.

Definition document_uuid (document : Document) : string :=
  match document with mkDocument uuid _ _ => uuid end.

Definition document_jexl (document : Document) : Jexl :=
  match document with mkDocument _ jexl _ => jexl end.

Definition document_findField (document : Document) (slug : string)
  : option Field :=
  match document with mkDocument _ _ fieldOf => fieldOf slug end.

(** [Boolean(field.value)]: an array is truthy, also when it is empty. *)
Definition value_truthy (value : FieldValue) : bool :=
  match value with
  | Scalar v => truthy v
  | Rows _ => true
  end.

(** ** Calls to the collaborators *)

(** The computation is pure but for what it asks of its collaborators: the
    extraction of the slugs of an expression and the lookup of a field in a
    document.  A computation returns its result together with the calls it
    made, in order. *)
Inductive Call : Type :=
| CallGetDependenciesFromJexl (expression : string)
| CallFindField (uuid : string) (slug : string).

Definition Traced (A : Type) : Type := (list Call * Js.Result A)%type.

Definition calls {A} (m : Traced A) : list Call := fst m.
Definition returned {A} (m : Traced A) : Js.Result A := snd m.

Definition ret {A} (a : A) : Traced A := ([], Ok a).
Definition throw {A} (e : Js.Error) : Traced A := ([], Throw e).
Definition traced {A} (call : Call) (r : Js.Result A) : Traced A := ([call], r).

Definition bindT {A B} (m : Traced A) (k : A -> Traced B) : Traced B :=
  match m with
  | (log, Ok a) => let (log', r) := k a in (log ++ log', r)
  | (log, Throw e) => (log, Throw e)
  end.

Notation "x <~ c1 ;; c2" := (bindT c1 (fun x => c2))
  (at level 61, c1 at next level, right associativity).

Fixpoint mapT {A B} (f : A -> Traced B) (xs : list A) : Traced (list B) :=
  match xs with
  | [] => ret []
  | x :: xs' => y <~ f x ;; ys <~ mapT f xs' ;; ret (y :: ys)
  end.

(** ** Field lookup *)

(** The build of the application: the calls of [@ember/debug] are kept in a
    development build and compiled away in a production build. *)
Inductive Build : Type :=
| Development
| Production.

(** [assert(description, test)] of [@ember/debug]: in a development build it
    throws when the test is falsy; in a production build the call is not
    there. *)
Definition assert (build : Build) {A} (description : string) (test : option A)
  : Traced unit :=
  match build, test with
  | Development, None => throw (AssertionFailed description)
  | _, _ => ret tt
  end.

Definition notFoundMessage (slug uuid expression : string) : string :=
  ("Field for question `" ++ slug
   ++ "` could not be found in the document `" ++ uuid
   ++ "`. Please verify that the jexl expression is correct: `" ++ expression
   ++ "`.")%string.

(** The field found, or [undefined] ([None]) when the assertion let it
    through. *)
Definition findField (build : Build) (document : Document)
    (slug expression : string) : Traced (option Field) :=
  field <~ traced (CallFindField (document_uuid document) slug)
             (Ok (document_findField document slug)) ;;
  _ <~ assert build
         (notFoundMessage slug (document_uuid document) expression) field ;;
  ret field.

(** ** The computed properties *)

(** What the callback of [flatMap] returns: [null] or an array of fields,
    some of which may be [undefined]. *)
Inductive Emitted : Type :=
| EmitNull
| EmitArray (fields : list (option Field)).

(** [flatMap] flattens one level: an array contributes its elements, any
    other value contributes itself.  [None] stands for [null] and
    [undefined]. *)
Definition flatten (e : Emitted) : list (option Field) :=
  match e with
  | EmitNull => [None]
  | EmitArray fields => fields
  end.

(** [Boolean(x)] on an entry of the flattened array. *)
Definition isTruthy (x : option Field) : bool :=
  match x with
  | Some _ => true
  | None => false
  end.

(** [const [fieldSlug, nestedSlug = null] = slug.split(".")] *)
Definition splitSlug (slug : string) : string * option string :=
  let (fieldSlug, others) := split "." slug in (fieldSlug, hd_error others).

(** [Boolean(nestedSlug)] *)
Definition nested_truthy (nestedSlug : option string) : bool :=
  match nestedSlug with
  | Some s => negb (s =? "")
  | None => false
  end.

(** [field.value]: reading a property of [undefined] throws. *)
Definition valueOf (field : option Field) : Traced FieldValue :=
  match field with
  | Some f => ret (field_value f)
  | None => throw TypeError
  end.

(** [value.map((row) => findField(row, nestedSlug, expression))] *)
Definition nestedFields (build : Build) (value : FieldValue)
    (nestedSlug expression : string) : Traced (list (option Field)) :=
  match value with
  | Rows rows =>
      mapT (fun row => findField build row nestedSlug expression) rows
  | Scalar _ => throw TypeError
  end.

(** The callback of [flatMap] in [dependencies]. *)
Definition resolveSlug (build : Build) (onlyNestedParents : bool)
    (document : Document) (expression : string) (slug : Js.Value)
  : Traced Emitted :=
  match slug with
  | Str s =>
      let (fieldSlug, nestedSlug) := splitSlug s in
      if onlyNestedParents && negb (nested_truthy nestedSlug)
      then ret EmitNull
      else
        field <~ findField build document fieldSlug expression ;;
        match nestedSlug with
        | Some nested =>
            if negb onlyNestedParents && nested_truthy nestedSlug
            then
              value <~ valueOf field ;;
              if value_truthy value
              then
                children <~ nestedFields build value nested expression ;;
                ret (EmitArray (field :: children))
              else ret (EmitArray [field])
            else ret (EmitArray [field])
        | None => ret (EmitArray [field])
        end
  | _ => throw TypeError
  end.

(** [slugs.flatMap(...).filter(Boolean)] *)
Definition resolveSlugs (build : Build) (onlyNestedParents : bool)
    (document : Document) (expression : string) (slugs : list Js.Value)
  : Traced (list (option Field)) :=
  emitted <~ mapT (resolveSlug build onlyNestedParents document expression)
               slugs ;;
  ret (filter isTruthy (flat_map flatten emitted)).

(** The object a computed property is installed on: it has a [document] and
    its other properties are read by path. *)
Record This : Type := mkThis {
  document : Document;
  get : string -> option string
}.

Record Options : Type := mkOptions {
  onlyNestedParents : bool;
  nestedParentsPath : option string
}.

Definition defaultOptions : Options := mkOptions false None.

(** [computed(...dependentKeys, getter)] *)
Record Computed : Type := mkComputed {
  dependentKeys : list string;
  getter : This -> Traced (list (option Field))
}.

Definition dependencies (build : Build) (expressionPath : string)
    (options : Options) : Computed :=
  let nestedTriggers :=
    match nestedParentsPath options with
    | Some path => if path =? "" then [] else [(path ++ ".@each.value")%string]
    | None => []
    end in
  mkComputed
    ("document.{jexl,fields.[]}" :: expressionPath :: nestedTriggers)
    (fun this =>
       match get this expressionPath with
       | None => ret []
       | Some expression =>
           if expression =? "" then ret []
           else
             slugs <~ traced (CallGetDependenciesFromJexl expression)
                       (getDependenciesFromJexl
                          (document_jexl (document this)) expression) ;;
             resolveSlugs build (onlyNestedParents options) (document this)
               expression slugs
       end).

Definition nestedDependencyParents (build : Build) (expressionPath : string)
  : Computed :=
  dependencies build expressionPath (mkOptions true None).

(** ** The identifiers of the specification *)

(** The specification speaks of two kinds of identifier; the source only has
    their rendered form. *)
Inductive DependencyIdentifier : Type :=
| Direct (slug : string)
| Nested (parentSlug childSlug : string).

Definition render (identifier : DependencyIdentifier) : string :=
  match identifier with
  | Direct slug => slug
  | Nested parentSlug childSlug => (parentSlug ++ "." ++ childSlug)%string
  end.

(** A slug that the resolver reads as a direct identifier: a string that
    [split] leaves whole. *)
Definition isDirect (slug : Js.Value) : Prop :=
  exists s, slug = Str s /\ splitSlug s = (s, None).

(** The parent fields of the identifiers that the resolver reads as nested,
    in the order of the identifiers. *)
Definition nestedParentsOf (document : Document) (slugs : list Js.Value)
  : list (option Field) :=
  flat_map
    (fun slug =>
       match slug with
       | Str s =>
           let (parentSlug, nestedSlug) := splitSlug s in
           if nested_truthy nestedSlug
           then [document_findField document parentSlug]
           else []
       | _ => []
       end)
    slugs.

(** The identities of the fields of a returned sequence. *)
Definition identities (fields : list (option Field)) : list (option string) :=
  map (option_map field_pk) fields.

(** ** Example documents *)

Definition no_fields : string -> option Field := fun _ => None.

Definition column_field (n : string) : Field :=
  mkField ("row" ++ n ++ ":column")%string (Scalar (Str n)).

Definition example_row (n : string) : Document :=
  mkDocument ("row" ++ n)%string example_jexl
    (fun slug => if slug =? "column" then Some (column_field n) else None).

Definition foo_field : Field := mkField "doc:foo" (Scalar (Str "1")).

Definition bar_field : Field :=
  mkField "doc:bar" (Rows [example_row "1"; example_row "2"; example_row "3"]).

Definition example_document : Document :=
  mkDocument "doc" example_jexl
    (fun slug =>
       if slug =? "foo" then Some foo_field
       else if slug =? "bar" then Some bar_field
       else None).

Definition empty_document : Document :=
  mkDocument "empty" example_jexl no_fields.

Definition example_this (document : Document) : This :=
  mkThis document
    (fun path => if path =? "jexl" then Some example_expression else None).

(** A table whose second row lacks the column, and a document whose [bar] is
    a text field. *)
Definition bare_row : Document := mkDocument "row2" example_jexl no_fields.

Definition broken_bar_field : Field :=
  mkField "doc:bar" (Rows [example_row "1"; bare_row; example_row "3"]).

Definition broken_document : Document :=
  mkDocument "doc" example_jexl
    (fun slug => if slug =? "bar" then Some broken_bar_field else None).

Definition text_bar_field : Field := mkField "doc:bar" (Scalar (Str "text")).

Definition text_document : Document :=
  mkDocument "doc" example_jexl
    (fun slug => if slug =? "bar" then Some text_bar_field else None).

(** ** Traces *)

(** The lookups of the child in the rows, one row after the other. *)
Definition rowLookups (childSlug : string) (rows : list Document) : list Call :=
  map (fun row => CallFindField (document_uuid row) childSlug) rows.

(** ** Subsequences *)

(** [Subsequence xs ys]: [xs] is [ys] with some entries left out, the others
    in the same order. *)
Inductive Subsequence {A : Type} : list A -> list A -> Prop :=
| Subsequence_nil : Subsequence [] []
| Subsequence_skip (y : A) (xs ys : list A) :
    Subsequence xs ys -> Subsequence xs (y :: ys)
| Subsequence_keep (x : A) (xs ys : list A) :
    Subsequence xs ys -> Subsequence (x :: xs) (x :: ys).

(** * Properties *)

(** ** Sets *)

Section SetOf.

Lemma setOf_snoc (xs : list Js.Value) (v : Js.Value) :
  setOf (xs ++ [v]) = setAdd (setOf xs) v.
Proof. unfold setOf. now rewrite fold_left_app. Qed.

Lemma setAdd_In (seen : list Js.Value) (v x : Js.Value) :
  In x (setAdd seen v) <-> In x seen \/ x = v.
Proof.
  unfold setAdd. destruct (in_dec Value_eq_dec v seen) as [Hin | Hout].
  - split; [tauto | intros [H | ->]; assumption].
  - rewrite in_app_iff. simpl. intuition congruence.
Qed.

Lemma setOf_In (xs : list Js.Value) (x : Js.Value) :
  In x (setOf xs) <-> In x xs.
Proof.
  induction xs as [| v xs IH] using rev_ind.
  - reflexivity.
  - rewrite setOf_snoc, setAdd_In, IH, in_app_iff. simpl. intuition.
Qed.

Lemma setOf_NoDup (xs : list Js.Value) : NoDup (setOf xs).
Proof.
  induction xs as [| v xs IH] using rev_ind.
  - constructor.
  - rewrite setOf_snoc. unfold setAdd.
    destruct (in_dec Value_eq_dec v (setOf xs)) as [Hin | Hout]; [assumption |].
    apply NoDup_app; [assumption | repeat constructor; intros [] |].
    intros a Ha [<- | []]. contradiction.
Qed.

Lemma first_occurrence (xs : list Js.Value) (x : Js.Value) :
  In x xs -> exists before after, xs = before ++ x :: after /\ ~ In x before.
Proof.
  induction xs as [| v xs IH]; [intros [] |].
  intros Hin. destruct (Value_eq_dec v x) as [-> | Hne].
  - exists [], xs. split; [reflexivity | intros []].
  - destruct Hin as [Heq | Hin]; [contradiction |].
    destruct (IH Hin) as (before & after & -> & Hfresh).
    exists (v :: before), after. split; [reflexivity |].
    intros [Heq | Hb]; [contradiction | now apply Hfresh].
Qed.

(** The order of a set is the order of the first occurrences. *)
Lemma setOf_order (xs : list Js.Value) :
  forall l1 x l2 y,
    setOf xs = l1 ++ x :: l2 -> In y l2 ->
    exists before after,
      xs = before ++ x :: after /\ ~ In x before /\ ~ In y before.
Proof.
  induction xs as [| v xs IH] using rev_ind; intros l1 x l2 y Hset Hy.
  - destruct l1; discriminate.
  - rewrite setOf_snoc in Hset. unfold setAdd in Hset.
    destruct (in_dec Value_eq_dec v (setOf xs)) as [Hin | Hout].
    + destruct (IH _ _ _ _ Hset Hy) as (before & after & -> & Hx & Hyb).
      exists before, (after ++ [v]). rewrite <- app_assoc. now split.
    + destruct (exists_last (l := l2)) as (l2' & z & ->);
        [intros ->; destruct Hy |].
      change (l1 ++ x :: l2' ++ [z]) with (l1 ++ (x :: l2') ++ [z]) in Hset.
      rewrite app_assoc in Hset. apply app_inj_tail in Hset.
      destruct Hset as [Hset <-].
      apply in_app_or in Hy. destruct Hy as [Hy | [<- | []]].
      * destruct (IH _ _ _ _ Hset Hy) as (before & after & -> & Hx & Hyb).
        exists before, (after ++ [v]). rewrite <- app_assoc. now split.
      * assert (Hxin : In x xs).
        { apply setOf_In. rewrite Hset. apply in_elt. }
        destruct (first_occurrence _ _ Hxin) as (before & after & -> & Hx).
        exists before, (after ++ [v]). rewrite <- app_assoc.
        repeat split; [assumption |].
        intros Hvb. apply Hout, setOf_In, in_or_app. now left.
Qed.

End SetOf.

(** ** Splitting a slug *)

Lemma split_whole (sep : ascii) (s : string) :
  includes sep s = false -> split sep s = (s, []).
Proof.
  induction s as [| c s IH]; [reflexivity |]. simpl.
  destruct (Ascii.eqb c sep); [discriminate |].
  intros H. now rewrite (IH H).
Qed.

Lemma split_first (sep : ascii) (first rest : string) :
  includes sep first = false ->
  split sep (first ++ String sep rest)
  = (first, fst (split sep rest) :: snd (split sep rest)).
Proof.
  induction first as [| c first IH]; simpl.
  - intros _. rewrite Ascii.eqb_refl. now destruct (split sep rest).
  - destruct (Ascii.eqb c sep); [discriminate |].
    intros H. now rewrite (IH H).
Qed.

(** A slug without a dot is read as a direct identifier, and two of them
    joined by a dot as a nested one. *)
Lemma splitSlug_render_direct (slug : string) :
  includes "." slug = false ->
  splitSlug (render (Direct slug)) = (slug, None).
Proof. intros H. unfold splitSlug. simpl. now rewrite (split_whole _ _ H). Qed.

Lemma splitSlug_render_nested (parentSlug childSlug : string) :
  includes "." parentSlug = false ->
  includes "." childSlug = false ->
  splitSlug (render (Nested parentSlug childSlug))
  = (parentSlug, Some childSlug).
Proof.
  intros Hparent Hchild. unfold splitSlug. simpl.
  now rewrite (split_first _ _ _ Hparent), (split_whole _ _ Hchild).
Qed.

(** ** Callbacks that may throw *)

Lemma bind_Ok {A B} (r : Js.Result A) (k : A -> Js.Result B) (b : B) :
  Js.bind r k = Ok b -> exists a, r = Ok a /\ k a = Ok b.
Proof. destruct r as [a | e]; [now exists a | discriminate]. Qed.

Section Results.
Context {A B : Type}.

Lemma filterR_skip (p : A -> Js.Result bool) (before after : list A) (x : A) :
  p x = Ok false ->
  filterR p (before ++ x :: after) = filterR p (before ++ after).
Proof.
  intros Hx. induction before as [| a before IH]; simpl.
  - rewrite Hx. simpl. now destruct (filterR p after).
  - now rewrite IH.
Qed.

Lemma filterR_keeps (p : A -> Js.Result bool) (xs kept : list A) (x : A) :
  filterR p xs = Ok kept -> In x xs -> p x = Ok true -> In x kept.
Proof.
  revert kept. induction xs as [| a xs IH]; intros kept Hf Hin Hp;
    [destruct Hin |].
  simpl in Hf.
  apply bind_Ok in Hf. destruct Hf as (b & Hb & Hf).
  destruct (filterR p xs) as [ys | e]; [| discriminate].
  simpl in Hf. injection Hf as <-.
  destruct Hin as [-> | Hin].
  - rewrite Hp in Hb. injection Hb as <-. now left.
  - specialize (IH ys eq_refl Hin Hp). destruct b; [now right | assumption].
Qed.

Lemma mapR_In (f : A -> Js.Result B) (xs : list A) (ys : list B) (x : A) :
  mapR f xs = Ok ys -> In x xs -> exists y, f x = Ok y /\ In y ys.
Proof.
  revert ys. induction xs as [| a xs IH]; intros ys Hm Hin; [destruct Hin |].
  simpl in Hm.
  apply bind_Ok in Hm. destruct Hm as (y & Hy & Hm).
  destruct (mapR f xs) as [ys' | e]; [| discriminate].
  simpl in Hm. injection Hm as <-.
  destruct Hin as [-> | Hin].
  - exists y. split; [assumption | now left].
  - destruct (IH ys' eq_refl Hin) as (y' & Hy' & Hin').
    exists y'. split; [assumption | now right].
Qed.

End Results.

(** ** The walker *)

(** The transforms below an argument of a transform of the tree are
    transforms of the tree. *)
Lemma getTransforms_args (tree : Node) :
  forall transform argument inner,
    In transform (getTransforms tree) ->
    In argument (args transform) ->
    In inner (getTransforms argument) ->
    In inner (getTransforms tree).
Proof.
  induction tree as [v | pool fname fargs IH | type children IH]
    using Node_nested_ind; intros transform argument inner Ht Ha Hi.
  - destruct Ht.
  - rewrite Forall_forall in IH. destruct pool; simpl in *.
    + right. apply in_flat_map. destruct Ht as [<- | Ht].
      * now exists argument.
      * apply in_flat_map in Ht. destruct Ht as (node & Hnode & Ht).
        exists node. split; [assumption |].
        now apply (IH node Hnode transform argument).
    + apply in_flat_map in Ht. destruct Ht as (node & Hnode & Ht).
      apply in_flat_map. exists node. split; [assumption |].
      now apply (IH node Hnode transform argument).
  - simpl in *. apply in_flat_map in Ht. destruct Ht as (node & Hnode & Ht).
    apply in_flat_map. exists node. split; [assumption |].
    rewrite Forall_forall in IH. now apply (IH node Hnode transform argument).
Qed.

(** ** Extraction *)

Lemma discoveredSlugs_skip (before after : list Transform)
    (transform : Transform) :
  isAnswerTransform transform = false ->
  isMapbyTransform transform = Ok false ->
  discoveredSlugs (before ++ transform :: after)
  = discoveredSlugs (before ++ after).
Proof.
  intros Ha Hm. unfold discoveredSlugs.
  rewrite (filterR_skip _ _ _ _ Hm), !filter_app. simpl. now rewrite Ha.
Qed.

Lemma getDependenciesFromJexl_Ok (jexl : Jexl) (expression : string)
    (ids : list Js.Value) :
  getDependenciesFromJexl jexl expression = Ok ids ->
  exists tree discovered,
    getAST jexl expression = Ok tree
    /\ discoveredSlugs (getTransforms tree) = Ok discovered
    /\ ids = setOf discovered.
Proof.
  unfold getDependenciesFromJexl, extractDependencies. intros H.
  apply bind_Ok in H. destruct H as (tree & Htree & H).
  apply bind_Ok in H. destruct H as (discovered & Hd & H).
  injection H as <-. now exists tree, discovered.
Qed.

Lemma example_tree_slugs :
  extractDependencies (getTransforms example_tree)
  = Ok [Str "foo"; Str "bar"; Str "bar.column"].
Proof. reflexivity. Qed.

(** C1 (as amended): for the expression
    ['foo'|answer in 'bar'|answer|mapby('column')] extraction returns exactly
    the three slugs [foo], [bar] and [bar.column], in that order: the parent
    [bar] of the nested slug is a slug of its own. *)
Theorem example_extraction (jexl : Jexl) :
  getAST jexl example_expression = Ok example_tree ->
  getDependenciesFromJexl jexl example_expression
  = Ok [Str (render (Direct "foo")); Str (render (Direct "bar"));
        Str (render (Nested "bar" "column"))].
Proof.
  intros Htree. unfold getDependenciesFromJexl. rewrite Htree.
  exact example_tree_slugs.
Qed.

Lemma example_extraction_witness :
  getDependenciesFromJexl example_jexl example_expression
  = Ok [Str "foo"; Str "bar"; Str "bar.column"].
Proof. apply (example_extraction example_jexl). reflexivity. Defined.

(** C1 as stated fails: the result is not the two identifiers
    [Direct "foo"] and [Nested "bar" "column"]. *)
Lemma example_extraction_not_two :
  getAST example_jexl example_expression = Ok example_tree
  /\ getDependenciesFromJexl example_jexl example_expression
     <> Ok [Str (render (Direct "foo")); Str (render (Nested "bar" "column"))].
Proof. split; [reflexivity | discriminate]. Qed.

(** C5: the slugs returned by extraction are pairwise distinct, they are the
    discovered slugs, and they come in the order of their first occurrence
    among the discovered slugs: when [x] comes before [y] in the result, [x]
    is discovered before any [y].  An expression that reads ['foo'|answer]
    twice yields the single slug [foo]. *)
Theorem extraction_deduplicated :
  (forall jexl expression ids,
      getDependenciesFromJexl jexl expression = Ok ids ->
      exists tree discovered,
        getAST jexl expression = Ok tree
        /\ discoveredSlugs (getTransforms tree) = Ok discovered
        /\ NoDup ids
        /\ (forall v, In v ids <-> In v discovered)
        /\ (forall l1 x l2 y,
               ids = l1 ++ x :: l2 -> In y l2 ->
               exists before after,
                 discovered = before ++ x :: after
                 /\ ~ In x before /\ ~ In y before))
  /\ (forall jexl,
         getAST jexl twice_expression = Ok twice_tree ->
         getDependenciesFromJexl jexl twice_expression
         = Ok [Str (render (Direct "foo"))]).
Proof.
  split.
  - intros jexl expression ids H.
    destruct (getDependenciesFromJexl_Ok _ _ _ H)
      as (tree & discovered & Ht & Hd & ->).
    exists tree, discovered. repeat split; try assumption.
    + apply setOf_NoDup.
    + apply setOf_In.
    + apply setOf_In.
    + apply setOf_order.
  - intros jexl Htree. unfold getDependenciesFromJexl. now rewrite Htree.
Qed.

Lemma extraction_deduplicated_witness :
  NoDup [Str "foo"; Str "bar"; Str "bar.column"]
  /\ getDependenciesFromJexl example_jexl twice_expression = Ok [Str "foo"].
Proof.
  destruct extraction_deduplicated as [Hgeneral Htwice]. split.
  - destruct (Hgeneral example_jexl example_expression
                [Str "foo"; Str "bar"; Str "bar.column"] eq_refl)
      as (tree & discovered & _ & _ & Hnodup & _).
    exact Hnodup.
  - apply (Htwice example_jexl). reflexivity.
Defined.



(** C9 (as amended): for every mapby transform of the tree that is applied to
    an answer transform, extraction emits the dotted slug together with the
    parent slug: the answer transform is a transform of the tree, so its slug
    is emitted as well. *)
Theorem nested_slug_has_parent (jexl : Jexl) (expression : string)
    (ids : list Js.Value) :
  getDependenciesFromJexl jexl expression = Ok ids ->
  exists tree,
    getAST jexl expression = Ok tree
    /\ forall transform subject arguments,
        In transform (getTransforms tree) ->
        name transform = "mapby" ->
        args transform = subject :: arguments ->
        isAnswerTransformNode subject = true ->
        exists parent child,
          mapbyOperands transform = Ok (parent, child)
          /\ In (dotted parent child) ids
          /\ In parent ids
          /\ forall parentSlug childSlug,
              parent = Str parentSlug -> child = Str childSlug ->
              In (Str (render (Nested parentSlug childSlug))) ids
              /\ In (Str (render (Direct parentSlug))) ids.
Proof.
  intros H.
  destruct (getDependenciesFromJexl_Ok _ _ _ H)
    as (tree & discovered & Ht & Hd & ->).
  exists tree. split; [assumption |].
  intros transform subject arguments Hin Hname Hargs Hsubject.
  destruct subject as [v | [|] fname fargs | type children]; try discriminate.
  simpl in Hsubject. apply String.eqb_eq in Hsubject. subst fname.
  assert (Hmapby : isMapbyTransform transform = Ok true).
  { unfold isMapbyTransform. now rewrite Hname, Hargs. }
  unfold discoveredSlugs in Hd.
  apply bind_Ok in Hd. destruct Hd as (mapbys & Hfilter & Hd).
  apply bind_Ok in Hd. destruct Hd as (answerSlugs & Hanswers & Hd).
  apply bind_Ok in Hd. destruct Hd as (mapbySlugs & Hmapbys & Hd).
  injection Hd as <-.
  (* the mapby transform is rendered *)
  pose proof (filterR_keeps _ _ _ _ Hfilter Hin Hmapby) as Hkept.
  destruct (mapR_In _ _ _ _ Hmapbys Hkept) as (slug & Hslug & Hslug_in).
  unfold mapbySlug in Hslug.
  apply bind_Ok in Hslug. destruct Hslug as ([parent child] & Hoperands & Hslug).
  simpl in Hslug. injection Hslug as <-.
  (* its subject is an answer transform of the tree *)
  assert (Hparent : In parent answerSlugs).
  { unfold mapbyOperands in Hoperands. rewrite Hargs in Hoperands.
    simpl in Hoperands.
    assert (Hsub : In (mkTransform "answer" fargs) (getTransforms tree)).
    { apply (getTransforms_args tree transform
               (FunctionCall Transforms "answer" fargs)
               (mkTransform "answer" fargs) Hin).
      - rewrite Hargs. now left.
      - now left. }
    assert (Hfiltered :
              In (mkTransform "answer" fargs)
                 (filter isAnswerTransform (getTransforms tree))).
    { apply filter_In. now split. }
    destruct (mapR_In _ _ _ _ Hanswers Hfiltered) as (v & Hv & Hv_in).
    unfold answerSlug in Hv. simpl in Hv.
    destruct fargs as [| first fargs]; [discriminate |].
    simpl in Hv, Hoperands. injection Hv as <-.
    apply bind_Ok in Hoperands. destruct Hoperands as (c & _ & Hoperands).
    injection Hoperands as <- _. assumption. }
  assert (Hdotted : In (dotted parent child) (setOf (answerSlugs ++ mapbySlugs)))
    by (apply setOf_In, in_or_app; now right).
  assert (Hbare : In parent (setOf (answerSlugs ++ mapbySlugs)))
    by (apply setOf_In, in_or_app; now left).
  exists parent, child. repeat split; try assumption.
  - subst parent child. exact Hdotted.
  - subst parent. exact Hbare.
Qed.

Lemma nested_slug_has_parent_witness :
  In (Str "bar.column") [Str "foo"; Str "bar"; Str "bar.column"]
  /\ In (Str "bar") [Str "foo"; Str "bar"; Str "bar.column"].
Proof.
  destruct (nested_slug_has_parent example_jexl example_expression
              [Str "foo"; Str "bar"; Str "bar.column"] eq_refl)
    as (tree & Htree & Hall).
  injection Htree as <-.
  destruct (Hall (mkTransform "mapby"
                    [FunctionCall Transforms "answer" [Literal (Str "bar")];
                     Literal (Str "column")])
              (FunctionCall Transforms "answer" [Literal (Str "bar")])
              [Literal (Str "column")])
    as (parent & child & Hoperands & _ & _ & Hslugs).
  - right. left. reflexivity.
  - reflexivity.
  - reflexivity.
  - reflexivity.
  - injection Hoperands as <- <-. exact (Hslugs "bar" "column" eq_refl eq_refl).
Defined.

(** C9 as stated fails: a mapby applied to the call of a function named
    [answer] passes the test of the source, which looks at the type and the
    name of the first argument only, but the call is no transform, so the
    dotted slug is emitted without its parent slug; and an answer transform
    on a literal that holds a dot yields a dotted slug on its own. *)
Lemma nested_slug_without_parent :
  getAST example_jexl function_expression = Ok function_tree
  /\ getDependenciesFromJexl example_jexl function_expression
     = Ok [Str (render (Nested "bar" "column"))]
  /\ ~ In (Str (render (Direct "bar"))) [Str (render (Nested "bar" "column"))]
  /\ getAST example_jexl dotted_expression = Ok dotted_tree
  /\ getDependenciesFromJexl example_jexl dotted_expression
     = Ok [Str (render (Nested "bar" "column"))].
Proof.
  repeat split. intros [H | []]. discriminate.
Qed.

(** ** Traced computations *)

Lemma returned_pair {A} (log : list Call) (r : Js.Result A) :
  returned (log, r) = r.
Proof. reflexivity. Qed.

Lemma returned_bindT {A B} (m : Traced A) (k : A -> Traced B) :
  returned (bindT m k)
  = match returned m with
    | Ok a => returned (k a)
    | Throw e => Throw e
    end.
Proof.
  destruct m as [log [a | e]]; simpl; [| reflexivity].
  now destruct (k a).
Qed.

Lemma calls_bindT {A B} (m : Traced A) (k : A -> Traced B) :
  calls (bindT m k)
  = calls m ++ match returned m with
               | Ok a => calls (k a)
               | Throw _ => []
               end.
Proof.
  destruct m as [log [a | e]]; simpl.
  - now destruct (k a).
  - now rewrite app_nil_r.
Qed.

Lemma returned_bindT_Ok {A B} (m : Traced A) (k : A -> Traced B) (b : B) :
  returned (bindT m k) = Ok b ->
  exists a, returned m = Ok a /\ returned (k a) = Ok b.
Proof.
  rewrite returned_bindT. destruct (returned m) as [a | e]; [| discriminate].
  intros H. now exists a.
Qed.

Section MapT.
Context {A B : Type} (f : A -> Traced B).

Lemma returned_mapT_cons (x : A) (xs : list A) :
  returned (mapT f (x :: xs))
  = match returned (f x) with
    | Ok y =>
        match returned (mapT f xs) with
        | Ok ys => Ok (y :: ys)
        | Throw e => Throw e
        end
    | Throw e => Throw e
    end.
Proof.
  simpl. rewrite returned_bindT. destruct (returned (f x)); [| reflexivity].
  rewrite returned_bindT. now destruct (returned (mapT f xs)).
Qed.

Lemma calls_mapT_cons (x : A) (xs : list A) :
  calls (mapT f (x :: xs))
  = calls (f x) ++ match returned (f x) with
                   | Ok _ => calls (mapT f xs)
                   | Throw _ => []
                   end.
Proof.
  simpl. rewrite calls_bindT. destruct (returned (f x)); [| reflexivity].
  rewrite calls_bindT. destruct (returned (mapT f xs)); simpl;
    now rewrite app_nil_r.
Qed.

Lemma returned_mapT_app (xs ys : list A) :
  returned (mapT f (xs ++ ys))
  = match returned (mapT f xs) with
    | Ok bs =>
        match returned (mapT f ys) with
        | Ok bs' => Ok (bs ++ bs')
        | Throw e => Throw e
        end
    | Throw e => Throw e
    end.
Proof.
  induction xs as [| x xs IH].
  - simpl. now destruct (returned (mapT f ys)).
  - rewrite <- app_comm_cons, !returned_mapT_cons, IH.
    destruct (returned (f x)); [| reflexivity].
    destruct (returned (mapT f xs)); [| reflexivity].
    now destruct (returned (mapT f ys)).
Qed.

Lemma calls_mapT_app (xs ys : list A) :
  calls (mapT f (xs ++ ys))
  = calls (mapT f xs) ++ match returned (mapT f xs) with
                         | Ok _ => calls (mapT f ys)
                         | Throw _ => []
                         end.
Proof.
  induction xs as [| x xs IH].
  - reflexivity.
  - rewrite <- app_comm_cons, !calls_mapT_cons, returned_mapT_cons, IH.
    destruct (returned (f x)); [| now rewrite !app_nil_r].
    rewrite <- app_assoc. f_equal.
    now destruct (returned (mapT f xs)).
Qed.

End MapT.

(** ** Field lookup *)

Lemma findField_found (build : Build) (document : Document)
    (slug expression : string) (field : Field) :
  document_findField document slug = Some field ->
  findField build document slug expression
  = ([CallFindField (document_uuid document) slug], Ok (Some field)).
Proof. intros H. unfold findField. simpl. rewrite H. now destruct build. Qed.

Lemma findField_missing (document : Document) (slug expression : string) :
  document_findField document slug = None ->
  findField Development document slug expression
  = ([CallFindField (document_uuid document) slug],
     Throw (AssertionFailed
              (notFoundMessage slug (document_uuid document) expression))).
Proof. intros H. unfold findField. simpl. now rewrite H. Qed.

Lemma findField_production (document : Document) (slug expression : string) :
  findField Production document slug expression
  = ([CallFindField (document_uuid document) slug],
     Ok (document_findField document slug)).
Proof. unfold findField. simpl. now destruct (document_findField document slug). Qed.

Lemma findField_calls (build : Build) (document : Document)
    (slug expression : string) :
  calls (findField build document slug expression)
  = [CallFindField (document_uuid document) slug].
Proof.
  unfold findField. simpl.
  destruct build, (document_findField document slug); reflexivity.
Qed.

Lemma findField_returned (build : Build) (document : Document)
    (slug expression : string) (field : option Field) :
  returned (findField build document slug expression) = Ok field ->
  field = document_findField document slug.
Proof.
  unfold findField. simpl.
  destruct build, (document_findField document slug); simpl; congruence.
Qed.

Lemma findField_development (document : Document) (slug expression : string)
    (field : option Field) :
  returned (findField Development document slug expression) = Ok field ->
  isTruthy field = true.
Proof.
  unfold findField. simpl.
  destruct (document_findField document slug); simpl; [| discriminate].
  now intros [= <-].
Qed.

(** ** Resolution *)

(** What a slug resolves to, case by case. *)
Lemma resolveSlug_skipped (build : Build) (document : Document)
    (expression slug fieldSlug : string) (nestedSlug : option string) :
  splitSlug slug = (fieldSlug, nestedSlug) ->
  nested_truthy nestedSlug = false ->
  resolveSlug build true document expression (Str slug) = ret EmitNull.
Proof. intros Hsplit Hnested. unfold resolveSlug. now rewrite Hsplit, Hnested. Qed.

Lemma resolveSlug_field (build : Build) (onlyNested : bool)
    (document : Document) (expression slug fieldSlug : string)
    (nestedSlug : option string) :
  splitSlug slug = (fieldSlug, nestedSlug) ->
  xorb onlyNested (nested_truthy nestedSlug) = false ->
  resolveSlug build onlyNested document expression (Str slug)
  = (field <~ findField build document fieldSlug expression ;;
     ret (EmitArray [field])).
Proof.
  intros Hsplit Hmode. unfold resolveSlug. rewrite Hsplit.
  destruct onlyNested, (nested_truthy nestedSlug); try discriminate;
    cbn [negb andb]; f_equal; now destruct nestedSlug.
Qed.

Lemma resolveSlug_descend (build : Build) (document : Document)
    (expression slug fieldSlug childSlug : string) :
  splitSlug slug = (fieldSlug, Some childSlug) ->
  childSlug <> "" ->
  resolveSlug build false document expression (Str slug)
  = (field <~ findField build document fieldSlug expression ;;
     value <~ valueOf field ;;
     if value_truthy value
     then
       children <~ nestedFields build value childSlug expression ;;
       ret (EmitArray (field :: children))
     else ret (EmitArray [field])).
Proof.
  intros Hsplit Hchild.
  assert (Hnested : nested_truthy (Some childSlug) = true).
  { simpl. apply negb_true_iff, String.eqb_neq, Hchild. }
  unfold resolveSlug. rewrite Hsplit. cbv beta iota.
  now rewrite Hnested.
Qed.

(** C2 (as amended): in a development build, when all fields are asked for
    ([onlyNestedParents] is false) and a direct identifier names a slug that
    has no field in the document, resolution throws at that lookup, nothing
    after it is looked up, and the message names the slug, the document and
    the expression. *)
Theorem missing_direct_field_fails (document : Document) (expression : string)
    (before after : list Js.Value) (slug : string) (resolved : list Emitted) :
  returned (mapT (resolveSlug Development false document expression) before)
  = Ok resolved ->
  splitSlug (render (Direct slug)) = (slug, None) ->
  document_findField document slug = None ->
  returned (resolveSlugs Development false document expression
              (before ++ Str (render (Direct slug)) :: after))
  = Throw (AssertionFailed
             ("Field for question `" ++ slug
              ++ "` could not be found in the document `"
              ++ document_uuid document
              ++ "`. Please verify that the jexl expression is correct: `"
              ++ expression ++ "`.")%string)
  /\ calls (resolveSlugs Development false document expression
              (before ++ Str (render (Direct slug)) :: after))
     = calls (mapT (resolveSlug Development false document expression) before)
         ++ [CallFindField (document_uuid document) slug].
Proof.
  intros Hbefore Hsplit Hmissing. simpl render in *.
  assert (Hslug : resolveSlug Development false document expression (Str slug)
                  = ([CallFindField (document_uuid document) slug],
                     Throw (AssertionFailed
                              (notFoundMessage slug (document_uuid document)
                                 expression)))).
  { rewrite (resolveSlug_field Development false _ expression _ _ _
               Hsplit eq_refl).
    now rewrite (findField_missing _ _ _ Hmissing). }
  unfold resolveSlugs. split.
  - rewrite returned_bindT, returned_mapT_app, Hbefore, returned_mapT_cons, Hslug.
    reflexivity.
  - rewrite calls_bindT, returned_mapT_app, calls_mapT_app, Hbefore,
      returned_mapT_cons, calls_mapT_cons, Hslug.
    simpl. now rewrite !app_nil_r.
Qed.

Lemma missing_direct_field_fails_witness :
  returned (resolveSlugs Development false example_document foo_expression
              ([Str "foo"] ++ Str "baz" :: [Str "bar"]))
  = Throw (AssertionFailed
             "Field for question `baz` could not be found in the document `doc`. Please verify that the jexl expression is correct: `'foo'|answer`.")
  /\ calls (resolveSlugs Development false example_document foo_expression
              ([Str "foo"] ++ Str "baz" :: [Str "bar"]))
     = [CallFindField "doc" "foo"; CallFindField "doc" "baz"].
Proof.
  apply (missing_direct_field_fails example_document foo_expression
           [Str "foo"] [Str "bar"] "baz" [EmitArray [Some foo_field]]);
    reflexivity.
Defined.

(** C2 as stated fails: when only the nested parents are asked for, a direct
    identifier is skipped without a lookup, so a missing field raises
    nothing, also in a development build; and in a production build, where
    the assertion is compiled away, the missing field is looked up and left
    out of the result without an error, also when all fields are asked
    for. *)
Lemma missing_direct_field_skipped :
  document_findField empty_document "foo" = None
  /\ getDependenciesFromJexl (document_jexl empty_document) foo_expression
     = Ok [Str (render (Direct "foo"))]
  /\ getter (dependencies Development "jexl" (mkOptions true None))
       (mkThis empty_document (fun _ => Some foo_expression))
     = ([CallGetDependenciesFromJexl foo_expression], Ok [])
  /\ getter (dependencies Production "jexl" defaultOptions)
       (mkThis empty_document (fun _ => Some foo_expression))
     = ([CallGetDependenciesFromJexl foo_expression;
         CallFindField "empty" "foo"], Ok []).
Proof. repeat split. Qed.

Lemma filter_isTruthy_Some (fields : list Field) :
  filter isTruthy (map Some fields) = map Some fields.
Proof. induction fields as [| f fields IH]; simpl; congruence. Qed.

Lemma resolveSlugs_single (build : Build) (onlyNested : bool)
    (document : Document) (expression : string) (slug : Js.Value)
    (fields : list (option Field)) :
  returned (resolveSlug build onlyNested document expression slug)
  = Ok (EmitArray fields) ->
  returned (resolveSlugs build onlyNested document expression [slug])
  = Ok (filter isTruthy fields).
Proof.
  intros H. unfold resolveSlugs.
  rewrite returned_bindT, returned_mapT_cons, H. simpl.
  now rewrite app_nil_r.
Qed.

(** The child fields of the rows: every row is asked for the child. *)
Lemma nestedFields_rows (build : Build) (expression childSlug : string)
    (rows : list Document) (children : list Field) :
  Forall2 (fun row child => document_findField row childSlug = Some child)
          rows children ->
  returned (mapT (fun row => findField build row childSlug expression) rows)
  = Ok (map Some children).
Proof.
  induction 1 as [| row child rows children Hrow _ IH]; [reflexivity |].
  rewrite returned_mapT_cons, (findField_found _ _ _ _ _ Hrow), IH.
  reflexivity.
Qed.

(** What a slug with a second piece resolves to when all fields are asked
    for. *)
Lemma resolveSlug_nested (build : Build) (document : Document)
    (expression slug parentSlug childSlug : string) (parent : Field) :
  splitSlug slug = (parentSlug, Some childSlug) ->
  childSlug <> "" ->
  document_findField document parentSlug = Some parent ->
  returned (resolveSlug build false document expression (Str slug))
  = if value_truthy (field_value parent)
    then match returned (nestedFields build (field_value parent) childSlug
                           expression) with
         | Ok children => Ok (EmitArray (Some parent :: children))
         | Throw e => Throw e
         end
    else Ok (EmitArray [Some parent]).
Proof.
  intros Hsplit Hchild Hparent.
  rewrite (resolveSlug_descend _ _ expression _ _ _ Hsplit Hchild).
  rewrite returned_bindT, (findField_found _ _ _ _ _ Hparent), returned_pair.
  rewrite returned_bindT. cbn [valueOf ret returned snd].
  destruct (value_truthy (field_value parent)); [| reflexivity].
  rewrite returned_bindT.
  now destruct (returned (nestedFields build (field_value parent) childSlug
                            expression)).
Qed.

(** C3: in the mode that asks for all fields, a nested identifier whose parent
    field has rows resolves to the parent field followed by the child field
    of every row, in the order of the rows; when the parent has no rows or no
    value it resolves to the parent field alone.  This holds in either
    build. *)
Theorem nested_identifier_resolution (build : Build) (document : Document)
    (expression parentSlug childSlug : string) (parent : Field) :
  splitSlug (render (Nested parentSlug childSlug))
  = (parentSlug, Some childSlug) ->
  childSlug <> "" ->
  document_findField document parentSlug = Some parent ->
  (forall rows children,
      field_value parent = Rows rows ->
      Forall2 (fun row child => document_findField row childSlug = Some child)
              rows children ->
      returned (resolveSlugs build false document expression
                  [Str (render (Nested parentSlug childSlug))])
      = Ok (Some parent :: map Some children))
  /\ (field_value parent = Rows [] ->
      returned (resolveSlugs build false document expression
                  [Str (render (Nested parentSlug childSlug))])
      = Ok [Some parent])
  /\ (forall v,
         field_value parent = Scalar v -> truthy v = false ->
         returned (resolveSlugs build false document expression
                     [Str (render (Nested parentSlug childSlug))])
         = Ok [Some parent]).
Proof.
  intros Hsplit Hchild Hparent.
  pose proof (resolveSlug_nested build document expression _ _ _ _
                Hsplit Hchild Hparent) as Hslug.
  assert (Hrows :
            forall rows children,
              field_value parent = Rows rows ->
              Forall2 (fun row child =>
                         document_findField row childSlug = Some child)
                      rows children ->
              returned (resolveSlugs build false document expression
                          [Str (render (Nested parentSlug childSlug))])
              = Ok (Some parent :: map Some children)).
  { intros rows children Hvalue Hchildren.
    rewrite <- (filter_isTruthy_Some children).
    apply (resolveSlugs_single build false document expression _
             (Some parent :: map Some children)).
    rewrite Hslug, Hvalue. cbn [value_truthy nestedFields].
    now rewrite (nestedFields_rows _ _ _ _ _ Hchildren). }
  split; [exact Hrows |]. split.
  - intros Hvalue. apply (Hrows [] [] Hvalue). constructor.
  - intros v Hvalue Hfalsy.
    apply (resolveSlugs_single build false document expression _
             [Some parent]).
    rewrite Hslug, Hvalue. simpl. now rewrite Hfalsy.
Qed.

Lemma nested_identifier_resolution_witness :
  returned (resolveSlugs Development false example_document
              example_expression [Str "bar.column"])
  = Ok [Some bar_field; Some (column_field "1"); Some (column_field "2");
        Some (column_field "3")].
Proof.
  apply (proj1 (nested_identifier_resolution
                  Development example_document example_expression
                  "bar" "column" bar_field
                  eq_refl ltac:(discriminate) eq_refl)
           [example_row "1"; example_row "2"; example_row "3"]
           [column_field "1"; column_field "2"; column_field "3"]
           eq_refl).
  repeat constructor.
Defined.

(** What a direct slug resolves to. *)
Lemma resolveSlug_direct (build : Build) (onlyNested : bool)
    (document : Document) (expression slug : string) :
  splitSlug slug = (slug, None) ->
  returned (resolveSlug build onlyNested document expression (Str slug))
  = if onlyNested then Ok EmitNull
    else match returned (findField build document slug expression) with
         | Ok field => Ok (EmitArray [field])
         | Throw e => Throw e
         end.
Proof.
  intros Hsplit. destruct onlyNested.
  - now rewrite (resolveSlug_skipped _ _ expression _ _ _ Hsplit eq_refl).
  - rewrite (resolveSlug_field build false _ expression _ _ _ Hsplit eq_refl).
    rewrite returned_bindT.
    now destruct (returned (findField build document slug expression)).
Qed.

(** The entries of the direct slugs are the lookups of the slugs. *)
Lemma direct_slugs_all (build : Build) (document : Document)
    (expression : string) (slugs : list Js.Value) :
  Forall isDirect slugs ->
  forall emitted,
    returned (mapT (resolveSlug build false document expression) slugs)
    = Ok emitted ->
    Forall2 (fun slug entry =>
               exists s, slug = Str s
                         /\ entry = document_findField document s)
            slugs (flat_map flatten emitted).
Proof.
  induction 1 as [| slug slugs (s & -> & Hsplit) _ IH]; intros emitted Hm.
  - injection Hm as <-. constructor.
  - rewrite returned_mapT_cons, (resolveSlug_direct _ _ _ _ _ Hsplit) in Hm.
    destruct (returned (findField build document s expression))
      as [field |] eqn:Hfield; [| discriminate].
    destruct (returned (mapT (resolveSlug build false document expression)
                          slugs)) as [rest | e]; [| discriminate].
    injection Hm as <-. simpl.
    constructor; [| now apply IH].
    exists s. split; [reflexivity |]. exact (findField_returned _ _ _ _ _ Hfield).
Qed.

Lemma direct_slugs_parents (build : Build) (document : Document)
    (expression : string) (slugs : list Js.Value) :
  Forall isDirect slugs ->
  forall emitted,
    returned (mapT (resolveSlug build true document expression) slugs)
    = Ok emitted ->
    filter isTruthy (flat_map flatten emitted) = [].
Proof.
  induction 1 as [| slug slugs (s & -> & Hsplit) _ IH]; intros emitted Hm.
  - now injection Hm as <-.
  - rewrite returned_mapT_cons, (resolveSlug_direct _ _ _ _ _ Hsplit) in Hm.
    destruct (returned (mapT (resolveSlug build true document expression)
                          slugs)) as [rest | e]; [| discriminate].
    injection Hm as <-. simpl. now apply IH.
Qed.

Lemma distinct_slugs_distinct_fields (document : Document)
    (slugs : list Js.Value) (entries : list (option Field)) :
  (forall s1 s2 f1 f2,
      document_findField document s1 = Some f1 ->
      document_findField document s2 = Some f2 ->
      field_pk f1 = field_pk f2 -> s1 = s2) ->
  Forall2 (fun slug entry =>
             exists s, slug = Str s
                       /\ entry = document_findField document s)
          slugs entries ->
  NoDup slugs -> NoDup (identities (filter isTruthy entries)).
Proof.
  intros Hinj.
  induction 1 as [| slug entry slugs entries (s & -> & ->) Hall IH];
    intros Hnodup; [constructor |].
  inversion Hnodup as [| ? ? Hfresh Hrest]; subst.
  specialize (IH Hrest). simpl.
  destruct (document_findField document s) as [field |] eqn:Hs;
    [| exact IH].
  simpl. constructor; [| exact IH].
  intros Hdup. unfold identities in Hdup. apply in_map_iff in Hdup.
  destruct Hdup as (entry' & Hpk & Hin).
  apply filter_In in Hin. destruct Hin as [Hin _].
  apply Hfresh. clear IH Hnodup Hfresh Hrest.
  induction Hall as [| slug' e' slugs entries (s' & -> & ->) Hall IH];
    [destruct Hin |].
  destruct Hin as [<- | Hin]; [| right; now apply IH].
  left. f_equal. symmetry.
  destruct (document_findField document s') as [field' |] eqn:Hs';
    [| discriminate].
  simpl in Hpk. injection Hpk as Hpk.
  exact (Hinj _ _ _ _ Hs Hs' (eq_sym Hpk)).
Qed.

(** C4 (as amended): the returned sequence is not deduplicated; it contains
    no field twice when the identifiers are pairwise distinct direct
    identifiers and distinct slugs name distinct fields of the document.
    This holds in either build. *)
Theorem direct_fields_distinct (build : Build) (onlyNested : bool)
    (document : Document) (expression : string) (slugs : list Js.Value)
    (fields : list (option Field)) :
  NoDup slugs ->
  Forall isDirect slugs ->
  (forall s1 s2 f1 f2,
      document_findField document s1 = Some f1 ->
      document_findField document s2 = Some f2 ->
      field_pk f1 = field_pk f2 -> s1 = s2) ->
  returned (resolveSlugs build onlyNested document expression slugs)
  = Ok fields ->
  NoDup (identities fields).
Proof.
  intros Hnodup Hdirect Hinj Hfields. unfold resolveSlugs in Hfields.
  apply returned_bindT_Ok in Hfields.
  destruct Hfields as (emitted & Hemitted & Hfields).
  injection Hfields as <-. destruct onlyNested.
  - rewrite (direct_slugs_parents _ _ _ _ Hdirect _ Hemitted). constructor.
  - apply (distinct_slugs_distinct_fields document slugs); try assumption.
    exact (direct_slugs_all _ _ _ _ Hdirect _ Hemitted).
Qed.

Lemma direct_fields_distinct_witness :
  NoDup (identities [Some foo_field; Some bar_field]).
Proof.
  apply (direct_fields_distinct Development false example_document
           example_expression [Str "foo"; Str "bar"]).
  - repeat constructor; simpl; intuition discriminate.
  - repeat constructor; [now exists "foo" | now exists "bar"].
  - intros s1 s2 f1 f2. simpl.
    destruct (s1 =? "foo") eqn:H1; destruct (s2 =? "foo") eqn:H2;
      try destruct (s1 =? "bar") eqn:H1'; try destruct (s2 =? "bar") eqn:H2';
      try discriminate;
      repeat match goal with
        | H : (_ =? _) = true |- _ => apply String.eqb_eq in H; subst
        end;
      intros [= <-] [= <-]; try discriminate; reflexivity.
  - reflexivity.
Defined.

(** C4 as stated fails: for the running example the parent field [bar] is
    returned twice, once for the slug [bar] and once for [bar.column]. *)
Lemma parent_field_returned_twice :
  returned (getter (dependencies Development "jexl" defaultOptions)
              (example_this example_document))
  = Ok [Some foo_field; Some bar_field; Some bar_field;
        Some (column_field "1"); Some (column_field "2");
        Some (column_field "3")]
  /\ ~ NoDup (identities
                [Some foo_field; Some bar_field; Some bar_field;
                 Some (column_field "1"); Some (column_field "2");
                 Some (column_field "3")]).
Proof.
  split; [reflexivity |].
  intros H. inversion H as [| ? ? _ H']. inversion H' as [| ? ? Hfresh _].
  apply Hfresh. now left.
Qed.

(** What a slug resolves to when only the nested parents are asked for. *)
Lemma resolveSlug_parents (build : Build) (document : Document)
    (expression slug : string) :
  returned (resolveSlug build true document expression (Str slug))
  = let (parentSlug, nestedSlug) := splitSlug slug in
    if nested_truthy nestedSlug
    then match returned (findField build document parentSlug expression) with
         | Ok field => Ok (EmitArray [field])
         | Throw e => Throw e
         end
    else Ok EmitNull.
Proof.
  destruct (splitSlug slug) as [parentSlug nestedSlug] eqn:Hsplit.
  destruct (nested_truthy nestedSlug) eqn:Hnested.
  - rewrite (resolveSlug_field build true _ expression _ _ _ Hsplit);
      [| now rewrite Hnested].
    rewrite returned_bindT.
    now destruct (returned (findField build document parentSlug expression)).
  - now rewrite (resolveSlug_skipped _ _ expression _ _ _ Hsplit Hnested).
Qed.

Lemma filter_all {A} (p : A -> bool) (xs : list A) :
  Forall (fun x => p x = true) xs -> filter p xs = xs.
Proof.
  induction 1 as [| x xs Hx _ IH]; [reflexivity |].
  simpl. now rewrite Hx, IH.
Qed.

Lemma nested_parents_resolution (build : Build) (document : Document)
    (expression : string) (slugs : list Js.Value) :
  forall emitted,
    returned (mapT (resolveSlug build true document expression) slugs)
    = Ok emitted ->
    filter isTruthy (flat_map flatten emitted)
    = filter isTruthy (nestedParentsOf document slugs).
Proof.
  induction slugs as [| slug slugs IH]; intros emitted Hm.
  - now injection Hm as <-.
  - rewrite returned_mapT_cons in Hm.
    destruct (returned (resolveSlug build true document expression slug))
      as [first | e] eqn:Hfirst; [| discriminate].
    destruct (returned (mapT (resolveSlug build true document expression)
                          slugs)) as [rest | e]; [| discriminate].
    injection Hm as <-.
    change (flat_map flatten (first :: rest))
      with (flatten first ++ flat_map flatten rest).
    unfold nestedParentsOf. cbn [flat_map].
    rewrite !filter_app. f_equal; [| exact (IH rest eq_refl)].
    destruct slug as [| | b | s]; try discriminate.
    rewrite resolveSlug_parents in Hfirst.
    destruct (splitSlug s) as [parentSlug nestedSlug].
    destruct (nested_truthy nestedSlug).
    + destruct (returned (findField build document parentSlug expression))
        as [field | e] eqn:Hfield; [| discriminate].
      injection Hfirst as <-.
      now rewrite (findField_returned _ _ _ _ _ Hfield).
    + now injection Hfirst as <-.
Qed.

(** In a development build every nested parent has been found when the
    computation returns. *)
Lemma nested_parents_development (document : Document) (expression : string)
    (slugs : list Js.Value) :
  forall emitted,
    returned (mapT (resolveSlug Development true document expression) slugs)
    = Ok emitted ->
    Forall (fun entry => isTruthy entry = true)
           (nestedParentsOf document slugs).
Proof.
  induction slugs as [| slug slugs IH]; intros emitted Hm; [constructor |].
  rewrite returned_mapT_cons in Hm.
  destruct (returned (resolveSlug Development true document expression slug))
    as [first | e] eqn:Hfirst; [| discriminate].
  destruct (returned (mapT (resolveSlug Development true document expression)
                        slugs)) as [rest | e]; [| discriminate].
  unfold nestedParentsOf. cbn [flat_map].
  apply Forall_app. split; [| exact (IH rest eq_refl)].
  destruct slug as [| | b | s]; try discriminate.
  rewrite resolveSlug_parents in Hfirst.
  destruct (splitSlug s) as [parentSlug nestedSlug].
  destruct (nested_truthy nestedSlug); [| constructor].
  destruct (returned (findField Development document parentSlug expression))
    as [field | e] eqn:Hfield; [| discriminate].
  constructor; [| constructor].
  rewrite <- (findField_returned _ _ _ _ _ Hfield).
  exact (findField_development _ _ _ _ Hfield).
Qed.

Lemma nested_parents_found (build : Build) (document : Document)
    (expression : string) (slugs : list Js.Value) :
  Forall (fun slug => exists s, slug = Str s) slugs ->
  Forall (fun entry => isTruthy entry = true)
         (nestedParentsOf document slugs) ->
  returned (resolveSlugs build true document expression slugs)
  = Ok (nestedParentsOf document slugs).
Proof.
  intros Hstrings Hfound.
  assert (Hemitted :
            exists emitted,
              returned (mapT (resolveSlug build true document expression)
                          slugs)
              = Ok emitted).
  { induction Hstrings as [| slug slugs (s & ->) _ IH].
    - now exists [].
    - unfold nestedParentsOf in Hfound. cbn [flat_map] in Hfound.
      apply Forall_app in Hfound. destruct Hfound as [Hfirst Hrest].
      destruct (IH Hrest) as (rest & Hrest').
      rewrite returned_mapT_cons, resolveSlug_parents, Hrest'.
      destruct (splitSlug s) as [parentSlug nestedSlug].
      destruct (nested_truthy nestedSlug); [| now eexists].
      inversion Hfirst as [| ? ? Htruthy _]; subst.
      destruct (document_findField document parentSlug) as [field |] eqn:Hfield;
        [| discriminate].
      rewrite (findField_found _ _ _ _ _ Hfield). now eexists. }
  destruct Hemitted as (emitted & Hemitted).
  unfold resolveSlugs. rewrite returned_bindT, Hemitted. simpl.
  rewrite (nested_parents_resolution _ _ _ _ _ Hemitted).
  now rewrite (filter_all _ _ Hfound).
Qed.

Lemma getter_dependencies (build : Build) (expressionPath : string)
    (options : Options) (this : This) (expression : string) :
  get this expressionPath = Some expression ->
  expression <> "" ->
  getter (dependencies build expressionPath options) this
  = (slugs <~ traced (CallGetDependenciesFromJexl expression)
               (getDependenciesFromJexl
                  (document_jexl (document this)) expression) ;;
     resolveSlugs build (onlyNestedParents options) (document this)
       expression slugs).
Proof.
  intros Hget Hnonempty. apply String.eqb_neq in Hnonempty.
  unfold dependencies, getter. now rewrite Hget, Hnonempty.
Qed.

Lemma getter_dependencies_empty (build : Build) (expressionPath : string)
    (options : Options) (this : This) :
  get this expressionPath = None \/ get this expressionPath = Some "" ->
  getter (dependencies build expressionPath options) this = ret [].
Proof.
  intros [Hget | Hget]; unfold dependencies, getter; now rewrite Hget.
Qed.

(** C7: [nestedDependencyParents] is [dependencies] with [onlyNestedParents]
    set, and what it returns is exactly the parent field of every nested
    identifier, in the order of the identifiers: no field for a direct
    identifier and no field of a row; it returns as soon as every such
    parent has a field.  For the running example it is the field [bar]
    alone, whatever else the document holds.  In a production build, where
    a parent without a field is not reported, the parents returned are those
    that have a field. *)
Theorem nested_parents_only :
  (forall build expressionPath,
      nestedDependencyParents build expressionPath
      = dependencies build expressionPath (mkOptions true None))
  /\ (forall build expressionPath this expression slugs fields,
         get this expressionPath = Some expression ->
         expression <> "" ->
         getDependenciesFromJexl (document_jexl (document this)) expression
         = Ok slugs ->
         returned (getter (nestedDependencyParents build expressionPath) this)
         = Ok fields ->
         fields = filter isTruthy (nestedParentsOf (document this) slugs)
         /\ (build = Development ->
             fields = nestedParentsOf (document this) slugs))
  /\ (forall build expressionPath this expression slugs,
         get this expressionPath = Some expression ->
         expression <> "" ->
         getDependenciesFromJexl (document_jexl (document this)) expression
         = Ok slugs ->
         Forall (fun slug => exists s, slug = Str s) slugs ->
         Forall (fun entry => isTruthy entry = true)
                (nestedParentsOf (document this) slugs) ->
         returned (getter (nestedDependencyParents build expressionPath) this)
         = Ok (nestedParentsOf (document this) slugs))
  /\ (forall build expressionPath this bar,
         get this expressionPath = Some example_expression ->
         getAST (document_jexl (document this)) example_expression
         = Ok example_tree ->
         document_findField (document this) "bar" = Some bar ->
         returned (getter (nestedDependencyParents build expressionPath) this)
         = Ok [Some bar]).
Proof.
  split; [reflexivity |]. split; [| split].
  - intros build expressionPath this expression slugs fields
      Hget Hnonempty Hslugs H.
    unfold nestedDependencyParents in H.
    rewrite (getter_dependencies _ _ _ _ _ Hget Hnonempty) in H.
    unfold traced in H. rewrite returned_bindT, returned_pair, Hslugs in H.
    cbn [onlyNestedParents] in H.
    unfold resolveSlugs in H. apply returned_bindT_Ok in H.
    destruct H as (emitted & Hemitted & H). injection H as <-.
    rewrite (nested_parents_resolution _ _ expression _ _ Hemitted).
    split; [reflexivity |].
    intros ->. apply filter_all.
    exact (nested_parents_development _ _ _ _ Hemitted).
  - intros build expressionPath this expression slugs Hget Hnonempty Hslugs
      Hstrings Hfound.
    unfold nestedDependencyParents.
    rewrite (getter_dependencies _ _ _ _ _ Hget Hnonempty).
    unfold traced. rewrite returned_bindT, returned_pair, Hslugs.
    now apply nested_parents_found.
  - intros build expressionPath this bar Hget Htree Hbar.
    unfold nestedDependencyParents.
    rewrite (getter_dependencies _ _ _ _ _ Hget ltac:(discriminate)).
    unfold traced. rewrite returned_bindT, returned_pair.
    unfold getDependenciesFromJexl. rewrite Htree.
    cbn [onlyNestedParents Js.bind]. rewrite example_tree_slugs.
    unfold resolveSlugs.
    rewrite returned_bindT, !returned_mapT_cons, !resolveSlug_parents.
    cbn [splitSlug split hd_error nested_truthy Ascii.eqb Bool.eqb
           String.eqb negb].
    now rewrite (findField_found _ _ _ _ _ Hbar).
Qed.

Lemma nested_parents_only_witness :
  returned (getter (nestedDependencyParents Development "jexl")
              (example_this example_document))
  = Ok [Some bar_field].
Proof.
  destruct nested_parents_only as (_ & _ & _ & Hexample).
  apply (Hexample Development "jexl" (example_this example_document)
           bar_field);
    reflexivity.
Defined.

(** C8: an absent or empty expression is not an error: the computation
    returns the empty sequence and calls neither the extraction nor the field
    lookup. *)
Theorem empty_expression_no_dependencies (build : Build)
    (expressionPath : string) (options : Options) (this : This) :
  get this expressionPath = None \/ get this expressionPath = Some "" ->
  returned (getter (dependencies build expressionPath options) this) = Ok []
  /\ calls (getter (dependencies build expressionPath options) this) = [].
Proof.
  intros Hget. rewrite (getter_dependencies_empty _ _ options _ Hget).
  split; reflexivity.
Qed.

Lemma empty_expression_no_dependencies_witness :
  returned (getter (dependencies Development "isHidden" defaultOptions)
              (example_this empty_document)) = Ok []
  /\ calls (getter (dependencies Development "isHidden" defaultOptions)
              (example_this empty_document)) = [].
Proof.
  apply (empty_expression_no_dependencies Development "isHidden"
           defaultOptions (example_this empty_document)).
  left. reflexivity.
Defined.

(** C10: the sequence the computation returns has no [null] or [undefined]
    entry: the falsy entries are filtered out before it is returned. *)
Theorem no_falsy_entries (build : Build) (expressionPath : string)
    (options : Options) (this : This) (fields : list (option Field)) :
  returned (getter (dependencies build expressionPath options) this)
  = Ok fields ->
  Forall (fun entry => entry <> None /\ isTruthy entry = true) fields.
Proof.
  intros H. apply Forall_forall. intros entry Hin.
  assert (Htruthy : isTruthy entry = true).
  { destruct (get this expressionPath) as [expression |] eqn:Hget.
    - destruct (String.eqb_spec expression "") as [-> | Hnonempty].
      + rewrite (getter_dependencies_empty _ _ options _ (or_intror Hget)) in H.
        injection H as <-. destruct Hin.
      + rewrite (getter_dependencies _ _ options _ _ Hget Hnonempty) in H.
        apply returned_bindT_Ok in H. destruct H as (slugs & _ & H).
        unfold resolveSlugs in H. apply returned_bindT_Ok in H.
        destruct H as (emitted & _ & H). injection H as <-.
        now apply filter_In in Hin.
    - rewrite (getter_dependencies_empty _ _ options _ (or_introl Hget)) in H.
      injection H as <-. destruct Hin. }
  split; [| assumption]. now destruct entry.
Qed.

Lemma no_falsy_entries_witness :
  Forall (fun entry => entry <> None /\ isTruthy entry = true)
    [Some bar_field].
Proof.
  apply (no_falsy_entries Development "jexl" (mkOptions true None)
           (example_this example_document)).
  reflexivity.
Defined.

(** * Further properties of the extraction *)

Section ResultsInversion.
Context {A B : Type}.

Lemma filterR_kept (p : A -> Js.Result bool) (xs kept : list A) (x : A) :
  filterR p xs = Ok kept -> In x kept -> In x xs /\ p x = Ok true.
Proof.
  revert kept. induction xs as [| a xs IH]; intros kept Hf Hin; simpl in Hf.
  - injection Hf as <-. destruct Hin.
  - destruct (p a) as [b | e] eqn:Hb; [| discriminate]. simpl in Hf.
    destruct (filterR p xs) as [ys | e]; [| discriminate].
    simpl in Hf. injection Hf as <-.
    destruct b.
    + destruct Hin as [<- | Hin]; [split; [now left | assumption] |].
      destruct (IH ys eq_refl Hin). split; [now right | assumption].
    + destruct (IH ys eq_refl Hin). split; [now right | assumption].
Qed.

Lemma filterR_Throw (p : A -> Js.Result bool) (xs : list A) (e : Js.Error) :
  filterR p xs = Throw e -> exists x, In x xs /\ p x = Throw e.
Proof.
  induction xs as [| a xs IH]; intros Hf; simpl in Hf; [discriminate |].
  destruct (p a) as [b | e'] eqn:Hb.
  - simpl in Hf. destruct (filterR p xs) as [ys | e'']; [discriminate |].
    simpl in Hf. injection Hf as ->.
    destruct (IH eq_refl) as (x & Hin & Hx). exists x. split; [now right | assumption].
  - simpl in Hf. injection Hf as ->. exists a. split; [now left | assumption].
Qed.

Lemma mapR_from (f : A -> Js.Result B) (xs : list A) (ys : list B) (y : B) :
  mapR f xs = Ok ys -> In y ys -> exists x, In x xs /\ f x = Ok y.
Proof.
  revert ys. induction xs as [| a xs IH]; intros ys Hm Hin; simpl in Hm.
  - injection Hm as <-. destruct Hin.
  - destruct (f a) as [b | e] eqn:Hb; [| discriminate]. simpl in Hm.
    destruct (mapR f xs) as [ys' | e]; [| discriminate].
    simpl in Hm. injection Hm as <-.
    destruct Hin as [<- | Hin].
    + exists a. split; [now left | assumption].
    + destruct (IH ys' eq_refl Hin) as (x & Hx & Hfx).
      exists x. split; [now right | assumption].
Qed.

Lemma mapR_Throw (f : A -> Js.Result B) (xs : list A) (e : Js.Error) :
  mapR f xs = Throw e -> exists x, In x xs /\ f x = Throw e.
Proof.
  induction xs as [| a xs IH]; intros Hm; simpl in Hm; [discriminate |].
  destruct (f a) as [b | e'] eqn:Hb.
  - simpl in Hm. destruct (mapR f xs) as [ys | e'']; [discriminate |].
    simpl in Hm. injection Hm as ->.
    destruct (IH eq_refl) as (x & Hin & Hx). exists x. split; [now right | assumption].
  - simpl in Hm. injection Hm as ->. exists a. split; [now left | assumption].
Qed.

End ResultsInversion.

Lemma at_index_Throw {A} (xs : list A) (i : nat) (e : Js.Error) :
  at_index xs i = Throw e -> e = TypeError.
Proof. unfold at_index. destruct (nth_error xs i); congruence. Qed.

Lemma isMapbyTransform_Throw (transform : Transform) (e : Js.Error) :
  isMapbyTransform transform = Throw e -> e = TypeError.
Proof.
  unfold isMapbyTransform. destruct (name transform =? "mapby"); [| discriminate].
  destruct (at_index (args transform) 0) eqn:H; [discriminate |].
  simpl. intros [= <-]. exact (at_index_Throw _ _ _ H).
Qed.

Lemma answerSlug_Throw (transform : Transform) (e : Js.Error) :
  answerSlug transform = Throw e -> e = TypeError.
Proof.
  unfold answerSlug.
  destruct (at_index (args transform) 0) eqn:H; [discriminate |].
  simpl. intros [= <-]. exact (at_index_Throw _ _ _ H).
Qed.

Lemma mapbySlug_Throw (transform : Transform) (e : Js.Error) :
  mapbySlug transform = Throw e -> e = TypeError.
Proof.
  unfold mapbySlug, mapbyOperands.
  destruct (at_index (args transform) 0) as [subject |] eqn:H0;
    [| simpl; intros [= <-]; exact (at_index_Throw _ _ _ H0)].
  simpl. destruct subject as [v | pool fname fargs | type children]; simpl;
    try (intros [= <-]; reflexivity).
  destruct (at_index fargs 0) eqn:H1;
    [| simpl; intros [= <-]; exact (at_index_Throw _ _ _ H1)].
  simpl. destruct (at_index (args transform) 1) eqn:H2; [discriminate |].
  simpl. intros [= <-]. exact (at_index_Throw _ _ _ H2).
Qed.

Lemma discoveredSlugs_Ok (allTransforms : list Transform)
    (discovered : list Js.Value) :
  discoveredSlugs allTransforms = Ok discovered ->
  exists mapbys answerSlugs mapbySlugs,
    filterR isMapbyTransform allTransforms = Ok mapbys
    /\ mapR answerSlug (filter isAnswerTransform allTransforms)
       = Ok answerSlugs
    /\ mapR mapbySlug mapbys = Ok mapbySlugs
    /\ discovered = answerSlugs ++ mapbySlugs.
Proof.
  unfold discoveredSlugs. intros H.
  apply bind_Ok in H. destruct H as (mapbys & Hfilter & H).
  apply bind_Ok in H. destruct H as (answerSlugs & Hanswers & H).
  apply bind_Ok in H. destruct H as (mapbySlugs & Hmapbys & H).
  injection H as <-. now exists mapbys, answerSlugs, mapbySlugs.
Qed.

Lemma extractDependencies_Throw (allTransforms : list Transform)
    (e : Js.Error) :
  extractDependencies allTransforms = Throw e -> e = TypeError.
Proof.
  unfold extractDependencies, discoveredSlugs.
  destruct (filterR isMapbyTransform allTransforms) as [mapbys | e1] eqn:H1.
  - simpl.
    destruct (mapR answerSlug (filter isAnswerTransform allTransforms))
      as [answerSlugs | e2] eqn:H2.
    + simpl. destruct (mapR mapbySlug mapbys) as [mapbySlugs | e3] eqn:H3;
        [discriminate |].
      simpl. intros [= <-].
      destruct (mapR_Throw _ _ _ H3) as (t & _ & Ht).
      exact (mapbySlug_Throw _ _ Ht).
    + simpl. intros [= <-].
      destruct (mapR_Throw _ _ _ H2) as (t & _ & Ht).
      exact (answerSlug_Throw _ _ Ht).
  - simpl. intros [= <-].
    destruct (filterR_Throw _ _ _ H1) as (t & _ & Ht).
    exact (isMapbyTransform_Throw _ _ Ht).
Qed.

(** X1: the slugs extraction returns are exactly the slugs of the answer
    transforms and the dotted slugs of the mapby transforms applied to an
    answer transform; no other transform and nothing else contributes. *)
Theorem extraction_members (allTransforms : list Transform)
    (ids : list Js.Value) :
  extractDependencies allTransforms = Ok ids ->
  forall slug,
    In slug ids <->
    (exists transform,
        In transform allTransforms
        /\ name transform = "answer"
        /\ answerSlug transform = Ok slug)
    \/ (exists transform,
           In transform allTransforms
           /\ isMapbyTransform transform = Ok true
           /\ mapbySlug transform = Ok slug).
Proof.
  unfold extractDependencies. intros H slug.
  apply bind_Ok in H. destruct H as (discovered & Hd & H). injection H as <-.
  destruct (discoveredSlugs_Ok _ _ Hd)
    as (mapbys & answerSlugs & mapbySlugs & Hfilter & Hanswers & Hmapbys & ->).
  rewrite setOf_In, in_app_iff. split.
  - intros [Hin | Hin].
    + left. destruct (mapR_from _ _ _ _ Hanswers Hin) as (t & Ht & Hslug).
      apply filter_In in Ht. destruct Ht as [Ht Hname].
      exists t. repeat split; try assumption. now apply String.eqb_eq.
    + right. destruct (mapR_from _ _ _ _ Hmapbys Hin) as (t & Ht & Hslug).
      destruct (filterR_kept _ _ _ _ Hfilter Ht) as [Ht' Hp].
      now exists t.
  - intros [(t & Ht & Hname & Hslug) | (t & Ht & Hp & Hslug)].
    + left.
      assert (Hkept : In t (filter isAnswerTransform allTransforms)).
      { apply filter_In. split; [assumption |]. now apply String.eqb_eq. }
      destruct (mapR_In _ _ _ _ Hanswers Hkept) as (v & Hv & Hin).
      rewrite Hslug in Hv. now injection Hv as ->.
    + right.
      pose proof (filterR_keeps _ _ _ _ Hfilter Ht Hp) as Hkept.
      destruct (mapR_In _ _ _ _ Hmapbys Hkept) as (v & Hv & Hin).
      rewrite Hslug in Hv. now injection Hv as ->.
Qed.

Lemma extraction_members_witness :
  In (Str "bar.column") [Str "foo"; Str "bar"; Str "bar.column"].
Proof.
  apply (extraction_members (getTransforms example_tree)
           [Str "foo"; Str "bar"; Str "bar.column"] eq_refl).
  right.
  exists (mkTransform "mapby"
            [FunctionCall Transforms "answer" [Literal (Str "bar")];
             Literal (Str "column")]).
  repeat split. right. now left.
Defined.

(** X2: a transform that is named neither [answer] nor [mapby] contributes
    nothing: the result of extraction is that of the transforms without it,
    whatever its arguments are. *)
Theorem other_transform_ignored (before after : list Transform)
    (transform : Transform) :
  name transform <> "answer" ->
  name transform <> "mapby" ->
  extractDependencies (before ++ transform :: after)
  = extractDependencies (before ++ after).
Proof.
  intros Hanswer Hmapby. unfold extractDependencies.
  rewrite discoveredSlugs_skip; [reflexivity | |].
  - unfold isAnswerTransform. now apply String.eqb_neq.
  - unfold isMapbyTransform. apply String.eqb_neq in Hmapby. now rewrite Hmapby.
Qed.

Lemma other_transform_ignored_witness :
  extractDependencies
    ([mkTransform "answer" [Literal (Str "foo")]]
       ++ mkTransform "upper" [] :: [])
  = Ok [Str "foo"].
Proof.
  rewrite (other_transform_ignored
             [mkTransform "answer" [Literal (Str "foo")]] []
             (mkTransform "upper" [])
             ltac:(discriminate) ltac:(discriminate)).
  reflexivity.
Defined.

(** X3: a mapby transform applied to an answer transform but given no column
    makes the whole extraction throw a [TypeError], wherever it stands among
    the transforms. *)
Theorem mapby_without_column_throws (allTransforms : list Transform)
    (transform : Transform) (subject : Node) :
  In transform allTransforms ->
  name transform = "mapby" ->
  args transform = [subject] ->
  isAnswerCall subject = true ->
  extractDependencies allTransforms = Throw TypeError.
Proof.
  intros Hin Hname Hargs Hsubject.
  destruct (extractDependencies allTransforms) as [ids | e] eqn:H.
  - exfalso. unfold extractDependencies in H.
    apply bind_Ok in H. destruct H as (discovered & Hd & _).
    destruct (discoveredSlugs_Ok _ _ Hd)
      as (mapbys & answerSlugs & mapbySlugs & Hfilter & _ & Hmapbys & _).
    assert (Hp : isMapbyTransform transform = Ok true).
    { unfold isMapbyTransform. rewrite Hname, Hargs. simpl. now rewrite Hsubject. }
    pose proof (filterR_keeps _ _ _ _ Hfilter Hin Hp) as Hkept.
    destruct (mapR_In _ _ _ _ Hmapbys Hkept) as (v & Hv & _).
    unfold mapbySlug, mapbyOperands in Hv. rewrite Hargs in Hv. simpl in Hv.
    destruct subject as [x | pool fname fargs | type children]; try discriminate.
    simpl in Hv. destruct (at_index fargs 0); discriminate.
  - f_equal. exact (extractDependencies_Throw _ _ H).
Qed.

Lemma mapby_without_column_throws_witness :
  extractDependencies
    [mkTransform "answer" [Literal (Str "foo")];
     mkTransform "mapby" [FunctionCall Transforms "answer" [Literal (Str "bar")]];
     mkTransform "answer" [Literal (Str "bar")]]
  = Throw TypeError.
Proof.
  apply (mapby_without_column_throws _
           (mkTransform "mapby" [FunctionCall Transforms "answer" [Literal (Str "bar")]])
           (FunctionCall Transforms "answer" [Literal (Str "bar")])).
  - right. now left.
  - reflexivity.
  - reflexivity.
  - reflexivity.
Defined.

(** X4: [getDependenciesFromJexl] throws only what the parser threw or a
    [TypeError]; it never raises an assertion of its own. *)
Theorem extraction_errors (jexl : Jexl) (expression : string) (e : Js.Error) :
  getDependenciesFromJexl jexl expression = Throw e ->
  getAST jexl expression = Throw e \/ e = TypeError.
Proof.
  unfold getDependenciesFromJexl.
  destruct (getAST jexl expression) as [tree | e'].
  - simpl. intros H. right. exact (extractDependencies_Throw _ _ H).
  - simpl. intros [= <-]. now left.
Qed.

Lemma extraction_errors_witness :
  getAST example_jexl "1 +" = Throw (SyntaxError "1 +")
  \/ SyntaxError "1 +" = TypeError.
Proof.
  apply (extraction_errors example_jexl "1 +" (SyntaxError "1 +")).
  reflexivity.
Defined.

(** * Further properties of the resolution *)

Lemma traced_eta {A} (m : Traced A) : m = (calls m, returned m).
Proof. now destruct m. Qed.

(** Resolution of a single slug. *)
Lemma resolveSlugs_one (build : Build) (onlyNested : bool)
    (document : Document) (expression : string) (slug : Js.Value) :
  resolveSlugs build onlyNested document expression [slug]
  = (calls (resolveSlug build onlyNested document expression slug),
     match returned (resolveSlug build onlyNested document expression slug)
     with
     | Ok emitted => Ok (filter isTruthy (flatten emitted))
     | Throw e => Throw e
     end).
Proof.
  unfold resolveSlugs. simpl mapT.
  destruct (resolveSlug build onlyNested document expression slug)
    as [log [emitted | e]]; simpl; [| reflexivity].
  now rewrite !app_nil_r.
Qed.

Lemma lookups_found (childSlug : string) (rows : list Document)
    (children : list Field) :
  Forall2 (fun row child => document_findField row childSlug = Some child)
          rows children ->
  map (fun row => document_findField row childSlug) rows = map Some children.
Proof.
  induction 1 as [| row child rows children Hrow _ IH]; [reflexivity |].
  simpl. now rewrite Hrow, IH.
Qed.

Lemma rows_found (build : Build) (expression childSlug : string)
    (rows : list Document) (children : list Field) :
  Forall2 (fun row child => document_findField row childSlug = Some child)
          rows children ->
  mapT (fun row => findField build row childSlug expression) rows
  = (rowLookups childSlug rows, Ok (map Some children)).
Proof.
  induction 1 as [| row child rows children Hrow _ IH]; [reflexivity |].
  cbn [mapT]. rewrite (findField_found _ _ _ _ _ Hrow), IH. simpl.
  now rewrite app_nil_r.
Qed.

Lemma rows_missing (expression childSlug : string)
    (before after : list Document) (row : Document) (found : list Field) :
  Forall2 (fun row child => document_findField row childSlug = Some child)
          before found ->
  document_findField row childSlug = None ->
  mapT (fun row => findField Development row childSlug expression)
    (before ++ row :: after)
  = (rowLookups childSlug before
       ++ [CallFindField (document_uuid row) childSlug],
     Throw (AssertionFailed
              (notFoundMessage childSlug (document_uuid row) expression))).
Proof.
  intros Hbefore Hrow.
  rewrite (traced_eta (mapT _ (before ++ row :: after))).
  rewrite calls_mapT_app, returned_mapT_app, calls_mapT_cons, returned_mapT_cons.
  rewrite (rows_found Development expression _ _ _ Hbefore).
  rewrite (findField_missing _ _ expression Hrow). reflexivity.
Qed.

(** In a production build every row is looked up, whatever it holds. *)
Lemma rows_production (expression childSlug : string) (rows : list Document) :
  mapT (fun row => findField Production row childSlug expression) rows
  = (rowLookups childSlug rows,
     Ok (map (fun row => document_findField row childSlug) rows)).
Proof.
  induction rows as [| row rows IH]; [reflexivity |].
  cbn [mapT]. rewrite findField_production, IH. simpl.
  now rewrite app_nil_r.
Qed.

(** What a slug whose parent field holds rows resolves to when all fields are
    asked for, with the calls it makes. *)
Lemma resolveSlug_rows (build : Build) (document : Document)
    (expression slug parentSlug childSlug : string) (parent : Field)
    (rows : list Document) :
  splitSlug slug = (parentSlug, Some childSlug) ->
  childSlug <> "" ->
  document_findField document parentSlug = Some parent ->
  field_value parent = Rows rows ->
  resolveSlug build false document expression (Str slug)
  = (CallFindField (document_uuid document) parentSlug
       :: calls (mapT (fun row => findField build row childSlug expression)
                   rows),
     match returned (mapT (fun row => findField build row childSlug expression)
                       rows)
     with
     | Ok children => Ok (EmitArray (Some parent :: children))
     | Throw e => Throw e
     end).
Proof.
  intros Hsplit Hchild Hparent Hvalue.
  rewrite (resolveSlug_descend _ _ expression _ _ _ Hsplit Hchild).
  rewrite (findField_found _ _ _ _ _ Hparent). cbn [bindT valueOf ret].
  rewrite Hvalue. cbn [value_truthy nestedFields].
  destruct (mapT (fun row => findField build row childSlug expression) rows)
    as [log [children | e]]; simpl; [| reflexivity].
  now rewrite app_nil_r.
Qed.

(** X5: when a row of the parent table lacks the child field, a development
    build throws at that row: the message names the child slug, the row (not
    the document) and the expression, the rows before it have been looked up
    in order and the rows after it are not looked up.  A production build
    throws nothing: every row is looked up and the row without the child
    contributes no field. *)
Theorem missing_row_child_fails (document : Document)
    (expression slug parentSlug childSlug : string) (parent : Field)
    (before after : list Document) (row : Document) (found : list Field) :
  splitSlug slug = (parentSlug, Some childSlug) ->
  childSlug <> "" ->
  document_findField document parentSlug = Some parent ->
  field_value parent = Rows (before ++ row :: after) ->
  Forall2 (fun row child => document_findField row childSlug = Some child)
          before found ->
  document_findField row childSlug = None ->
  resolveSlugs Development false document expression [Str slug]
  = (CallFindField (document_uuid document) parentSlug
       :: rowLookups childSlug before
       ++ [CallFindField (document_uuid row) childSlug],
     Throw (AssertionFailed
              ("Field for question `" ++ childSlug
               ++ "` could not be found in the document `"
               ++ document_uuid row
               ++ "`. Please verify that the jexl expression is correct: `"
               ++ expression ++ "`.")%string))
  /\ resolveSlugs Production false document expression [Str slug]
     = (CallFindField (document_uuid document) parentSlug
          :: rowLookups childSlug (before ++ row :: after),
        Ok (Some parent
              :: map Some found
              ++ filter isTruthy
                   (map (fun row => document_findField row childSlug) after))).
Proof.
  intros Hsplit Hchild Hparent Hvalue Hbefore Hrow.
  rewrite !resolveSlugs_one.
  rewrite !(resolveSlug_rows _ _ expression _ _ _ _ _
              Hsplit Hchild Hparent Hvalue).
  rewrite (rows_missing expression _ _ after _ _ Hbefore Hrow).
  rewrite rows_production. split; [reflexivity |].
  cbn [calls returned fst snd flatten filter isTruthy].
  rewrite map_app, filter_app, (lookups_found _ _ _ Hbefore),
    filter_isTruthy_Some.
  cbn [map]. rewrite Hrow. reflexivity.
Qed.

Lemma missing_row_child_fails_witness :
  resolveSlugs Development false broken_document example_expression
    [Str "bar.column"]
  = ([CallFindField "doc" "bar"; CallFindField "row1" "column";
      CallFindField "row2" "column"],
     Throw (AssertionFailed
              "Field for question `column` could not be found in the document `row2`. Please verify that the jexl expression is correct: `'foo'|answer in 'bar'|answer|mapby('column')`."))
  /\ resolveSlugs Production false broken_document example_expression
       [Str "bar.column"]
     = ([CallFindField "doc" "bar"; CallFindField "row1" "column";
         CallFindField "row2" "column"; CallFindField "row3" "column"],
        Ok [Some broken_bar_field; Some (column_field "1");
            Some (column_field "3")]).
Proof.
  apply (missing_row_child_fails broken_document example_expression
           "bar.column" "bar" "column" broken_bar_field
           [example_row "1"] [example_row "3"] bare_row [column_field "1"]);
    try reflexivity.
  - discriminate.
  - repeat constructor.
Defined.

(** X6: when every row has the child field, resolving a nested identifier
    looks up the parent once in the document and then the child once in
    every row, in the order of the rows, in either build. *)
Theorem nested_rows_lookups (build : Build) (document : Document)
    (expression slug parentSlug childSlug : string) (parent : Field)
    (rows : list Document) (children : list Field) :
  splitSlug slug = (parentSlug, Some childSlug) ->
  childSlug <> "" ->
  document_findField document parentSlug = Some parent ->
  field_value parent = Rows rows ->
  Forall2 (fun row child => document_findField row childSlug = Some child)
          rows children ->
  calls (resolveSlugs build false document expression [Str slug])
  = CallFindField (document_uuid document) parentSlug
      :: rowLookups childSlug rows.
Proof.
  intros Hsplit Hchild Hparent Hvalue Hrows.
  rewrite resolveSlugs_one.
  rewrite (resolveSlug_rows _ _ expression _ _ _ _ _
             Hsplit Hchild Hparent Hvalue).
  now rewrite (rows_found build expression _ _ _ Hrows).
Qed.

Lemma nested_rows_lookups_witness :
  calls (resolveSlugs Development false example_document example_expression
           [Str "bar.column"])
  = [CallFindField "doc" "bar"; CallFindField "row1" "column";
     CallFindField "row2" "column"; CallFindField "row3" "column"].
Proof.
  apply (nested_rows_lookups Development example_document example_expression
           "bar.column" "bar" "column" bar_field
           [example_row "1"; example_row "2"; example_row "3"]
           [column_field "1"; column_field "2"; column_field "3"]);
    try reflexivity.
  - discriminate.
  - repeat constructor.
Defined.

(** X7: a nested identifier whose parent has no field in the document: a
    development build throws in both modes, after the single lookup of the
    parent, and the message names the parent slug, the document and the
    expression; a production build returns nothing for it when only the
    nested parents are asked for, and throws a [TypeError] on the value of
    the missing field when all fields are asked for. *)
Theorem missing_parent_fails (document : Document)
    (expression slug parentSlug : string) (nestedSlug : option string) :
  splitSlug slug = (parentSlug, nestedSlug) ->
  nested_truthy nestedSlug = true ->
  document_findField document parentSlug = None ->
  (forall onlyNested,
      resolveSlugs Development onlyNested document expression [Str slug]
      = ([CallFindField (document_uuid document) parentSlug],
         Throw (AssertionFailed
                  ("Field for question `" ++ parentSlug
                   ++ "` could not be found in the document `"
                   ++ document_uuid document
                   ++ "`. Please verify that the jexl expression is correct: `"
                   ++ expression ++ "`.")%string)))
  /\ resolveSlugs Production true document expression [Str slug]
     = ([CallFindField (document_uuid document) parentSlug], Ok [])
  /\ resolveSlugs Production false document expression [Str slug]
     = ([CallFindField (document_uuid document) parentSlug], Throw TypeError).
Proof.
  intros Hsplit Hnested Hmissing.
  destruct nestedSlug as [childSlug |]; [| discriminate].
  assert (Hchild : childSlug <> "").
  { simpl in Hnested. now apply String.eqb_neq, negb_true_iff. }
  split; [| split].
  - intros onlyNested. rewrite resolveSlugs_one. destruct onlyNested.
    + rewrite (resolveSlug_field Development true _ expression _ _ _ Hsplit);
        [| now rewrite Hnested].
      now rewrite (findField_missing _ _ expression Hmissing).
    + rewrite (resolveSlug_descend _ _ expression _ _ _ Hsplit Hchild).
      now rewrite (findField_missing _ _ expression Hmissing).
  - rewrite resolveSlugs_one.
    rewrite (resolveSlug_field Production true _ expression _ _ _ Hsplit);
      [| now rewrite Hnested].
    now rewrite findField_production, Hmissing.
  - rewrite resolveSlugs_one.
    rewrite (resolveSlug_descend _ _ expression _ _ _ Hsplit Hchild).
    now rewrite findField_production, Hmissing.
Qed.

Lemma missing_parent_fails_witness :
  resolveSlugs Development true empty_document example_expression
    [Str "bar.column"]
  = ([CallFindField "empty" "bar"],
     Throw (AssertionFailed
              "Field for question `bar` could not be found in the document `empty`. Please verify that the jexl expression is correct: `'foo'|answer in 'bar'|answer|mapby('column')`."))
  /\ resolveSlugs Production true empty_document example_expression
       [Str "bar.column"]
     = ([CallFindField "empty" "bar"], Ok [])
  /\ resolveSlugs Production false empty_document example_expression
       [Str "bar.column"]
     = ([CallFindField "empty" "bar"], Throw TypeError).
Proof.
  destruct (missing_parent_fails empty_document example_expression
              "bar.column" "bar" (Some "column") eq_refl eq_refl eq_refl)
    as (Hdevelopment & Hparents & Hall).
  split; [exact (Hdevelopment true) | split; assumption].
Defined.

(** X8: a nested identifier whose parent field holds a truthy value that is
    not a table makes resolution throw a [TypeError] when all fields are
    asked for, after the lookup of the parent; when only the nested parents
    are asked for the value is not read and the parent is returned.  This
    holds in either build. *)
Theorem scalar_parent_throws (build : Build) (document : Document)
    (expression slug parentSlug childSlug : string) (parent : Field)
    (v : Js.Value) :
  splitSlug slug = (parentSlug, Some childSlug) ->
  childSlug <> "" ->
  document_findField document parentSlug = Some parent ->
  field_value parent = Scalar v ->
  truthy v = true ->
  resolveSlugs build false document expression [Str slug]
  = ([CallFindField (document_uuid document) parentSlug], Throw TypeError)
  /\ resolveSlugs build true document expression [Str slug]
     = ([CallFindField (document_uuid document) parentSlug],
        Ok [Some parent]).
Proof.
  intros Hsplit Hchild Hparent Hvalue Htruthy.
  assert (Hnested : nested_truthy (Some childSlug) = true).
  { simpl. apply negb_true_iff, String.eqb_neq, Hchild. }
  rewrite !resolveSlugs_one. split.
  - rewrite (resolveSlug_descend _ _ expression _ _ _ Hsplit Hchild).
    rewrite (findField_found _ _ _ _ _ Hparent). cbn [bindT valueOf ret].
    rewrite Hvalue. cbn [value_truthy]. rewrite Htruthy. reflexivity.
  - rewrite (resolveSlug_field build true _ expression _ _ _ Hsplit);
      [| now rewrite Hnested].
    now rewrite (findField_found _ _ _ _ _ Hparent).
Qed.

Lemma scalar_parent_throws_witness :
  resolveSlugs Development false text_document example_expression
    [Str "bar.column"]
  = ([CallFindField "doc" "bar"], Throw TypeError)
  /\ resolveSlugs Development true text_document example_expression
       [Str "bar.column"]
     = ([CallFindField "doc" "bar"], Ok [Some text_bar_field]).
Proof.
  apply (scalar_parent_throws Development text_document example_expression
           "bar.column" "bar" "column" text_bar_field (Str "text"));
    try reflexivity.
  discriminate.
Defined.

(** The calls a slug makes when only the nested parents are asked for. *)
Lemma resolveSlug_parents_calls (build : Build) (document : Document)
    (expression : string) (slug : Js.Value) :
  calls (resolveSlug build true document expression slug) = []
  \/ exists parentSlug,
      calls (resolveSlug build true document expression slug)
      = [CallFindField (document_uuid document) parentSlug].
Proof.
  destruct slug as [| | b | s]; try (now left).
  destruct (splitSlug s) as [parentSlug nestedSlug] eqn:Hsplit.
  destruct (nested_truthy nestedSlug) eqn:Hnested.
  - right. exists parentSlug.
    rewrite (resolveSlug_field build true _ expression _ _ _ Hsplit);
      [| now rewrite Hnested].
    rewrite calls_bindT, findField_calls.
    now destruct (returned (findField build document parentSlug expression)).
  - left. now rewrite (resolveSlug_skipped _ _ expression _ _ _ Hsplit Hnested).
Qed.

(** X9: when only the nested parents are asked for, resolution looks fields
    up in the document itself and nowhere else (never in a row), and makes at
    most one lookup per identifier, in either build. *)
Theorem parents_mode_lookups (build : Build) (document : Document)
    (expression : string) (slugs : list Js.Value) :
  Forall (fun call =>
            exists slug, call = CallFindField (document_uuid document) slug)
         (calls (resolveSlugs build true document expression slugs))
  /\ List.length (calls (resolveSlugs build true document expression slugs))
     <= List.length slugs.
Proof.
  unfold resolveSlugs. rewrite calls_bindT.
  assert (Htail :
            match returned (mapT (resolveSlug build true document expression)
                              slugs)
            with
            | Ok a => calls (ret (filter isTruthy (flat_map flatten a)))
            | Throw _ => []
            end = []).
  { now destruct (returned (mapT (resolveSlug build true document expression)
                              slugs)). }
  rewrite Htail, app_nil_r. clear Htail.
  induction slugs as [| slug slugs [IHall IHlen]].
  - split; [constructor | apply le_n].
  - rewrite calls_mapT_cons.
    assert (Hrest :
              Forall (fun call =>
                        exists slug,
                          call = CallFindField (document_uuid document) slug)
                     match returned (resolveSlug build true document
                                       expression slug)
                     with
                     | Ok _ =>
                         calls (mapT (resolveSlug build true document
                                        expression) slugs)
                     | Throw _ => []
                     end
              /\ List.length
                   match returned (resolveSlug build true document
                                     expression slug)
                   with
                   | Ok _ =>
                       calls (mapT (resolveSlug build true document
                                      expression) slugs)
                   | Throw _ => []
                   end <= List.length slugs).
    { destruct (returned (resolveSlug build true document expression slug)).
      - now split.
      - split; [constructor | simpl; lia]. }
    destruct Hrest as [Hall Hlen].
    destruct (resolveSlug_parents_calls build document expression slug)
      as [-> | (parentSlug & ->)].
    + split; [assumption | simpl in *; lia].
    + split.
      * constructor; [now exists parentSlug | assumption].
      * simpl in *. lia.
Qed.

(** X10: identifiers are resolved one after the other: the fields of a
    concatenation are the fields of the first part followed by those of the
    second, and when the first part throws the second is never looked up. *)
Theorem resolution_concatenates (build : Build) (onlyNested : bool)
    (document : Document) (expression : string)
    (first second : list Js.Value) :
  returned (resolveSlugs build onlyNested document expression
              (first ++ second))
  = match returned (resolveSlugs build onlyNested document expression first)
    with
    | Ok fields =>
        match returned (resolveSlugs build onlyNested document expression
                          second)
        with
        | Ok fields' => Ok (fields ++ fields')
        | Throw e => Throw e
        end
    | Throw e => Throw e
    end
  /\ calls (resolveSlugs build onlyNested document expression
              (first ++ second))
     = calls (resolveSlugs build onlyNested document expression first)
         ++ match returned (resolveSlugs build onlyNested document expression
                              first)
            with
            | Ok _ =>
                calls (resolveSlugs build onlyNested document expression
                         second)
            | Throw _ => []
            end.
Proof.
  unfold resolveSlugs.
  rewrite !returned_bindT, !calls_bindT, returned_mapT_app, calls_mapT_app.
  destruct (returned (mapT (resolveSlug build onlyNested document expression)
                        first))
    as [emitted | e]; [| split; [reflexivity | now rewrite !app_nil_r]].
  destruct (returned (mapT (resolveSlug build onlyNested document expression)
                        second))
    as [emitted' | e]; simpl; rewrite ?app_nil_r; split; try reflexivity.
  now rewrite flat_map_app, filter_app.
Qed.

(** X12: when the extraction throws, be it the parser's error or a
    [TypeError], the computed property throws the same error and looks no
    field up. *)
Theorem extraction_failure_propagates (build : Build)
    (expressionPath : string) (options : Options) (this : This)
    (expression : string) (e : Js.Error) :
  get this expressionPath = Some expression ->
  expression <> "" ->
  getDependenciesFromJexl (document_jexl (document this)) expression
  = Throw e ->
  getter (dependencies build expressionPath options) this
  = ([CallGetDependenciesFromJexl expression], Throw e).
Proof.
  intros Hget Hnonempty Hthrow.
  rewrite (getter_dependencies _ _ options _ _ Hget Hnonempty).
  unfold traced. now rewrite Hthrow.
Qed.

Lemma extraction_failure_propagates_witness :
  getter (dependencies Development "isHidden" defaultOptions)
    (mkThis example_document (fun _ => Some "1 +"))
  = ([CallGetDependenciesFromJexl "1 +"], Throw (SyntaxError "1 +")).
Proof.
  apply (extraction_failure_propagates Development "isHidden" defaultOptions
           (mkThis example_document (fun _ => Some "1 +")) "1 +"
           (SyntaxError "1 +")).
  - reflexivity.
  - discriminate.
  - reflexivity.
Defined.

(** X13: only the first two pieces of a slug are read: whatever follows a
    second dot changes neither the result nor the lookups. *)
Theorem later_pieces_ignored (build : Build) (onlyNested : bool)
    (document : Document) (expression parentSlug childSlug rest : string) :
  includes "." parentSlug = false ->
  includes "." childSlug = false ->
  resolveSlug build onlyNested document expression
    (Str (parentSlug ++ "." ++ childSlug ++ "." ++ rest))
  = resolveSlug build onlyNested document expression
      (Str (parentSlug ++ "." ++ childSlug)).
Proof.
  intros Hparent Hchild.
  assert (Hlong : splitSlug (parentSlug ++ "." ++ childSlug ++ "." ++ rest)
                  = (parentSlug, Some childSlug)).
  { unfold splitSlug. simpl.
    now rewrite (split_first _ _ _ Hparent), (split_first _ _ _ Hchild). }
  pose proof (splitSlug_render_nested _ _ Hparent Hchild) as Hshort.
  cbv beta iota delta [render] in Hshort.
  unfold resolveSlug. now rewrite Hlong, Hshort.
Qed.

Lemma later_pieces_ignored_witness :
  resolveSlug Development false example_document example_expression
    (Str "bar.column.more.pieces")
  = resolveSlug Development false example_document example_expression
      (Str "bar.column").
Proof.
  apply (later_pieces_ignored Development false example_document
           example_expression "bar" "column" "more.pieces"); reflexivity.
Defined.

(** ** The two modes side by side *)

Lemma Subsequence_nil_l {A} (ys : list A) : Subsequence [] ys.
Proof. induction ys; now constructor. Qed.

Lemma Subsequence_app {A} (xs ys xs' ys' : list A) :
  Subsequence xs ys -> Subsequence xs' ys' ->
  Subsequence (xs ++ xs') (ys ++ ys').
Proof.
  induction 1 as [| y xs ys _ IH | x xs ys _ IH]; intros H'; simpl.
  - assumption.
  - apply Subsequence_skip. now apply IH.
  - apply Subsequence_keep. now apply IH.
Qed.

(** What a slug resolves to when all fields are asked for starts with the
    lookup of its first piece, and the lookup has found a field when the
    slug has a second piece. *)
Lemma resolveSlug_all_shape (build : Build) (document : Document)
    (expression : string) (slug : Js.Value) (emitted : Emitted) :
  returned (resolveSlug build false document expression slug) = Ok emitted ->
  exists s others,
    slug = Str s
    /\ emitted
       = EmitArray (document_findField document (fst (splitSlug s)) :: others)
    /\ (nested_truthy (snd (splitSlug s)) = true ->
        isTruthy (document_findField document (fst (splitSlug s))) = true).
Proof.
  destruct slug as [| | b | s]; try discriminate.
  destruct (splitSlug s) as [fieldSlug nestedSlug] eqn:Hsplit.
  intros H. exists s. rewrite Hsplit. cbn [fst snd].
  destruct (nested_truthy nestedSlug) eqn:Hnested.
  - destruct nestedSlug as [childSlug |]; [| discriminate].
    assert (Hchild : childSlug <> "").
    { simpl in Hnested. now apply String.eqb_neq, negb_true_iff. }
    rewrite (resolveSlug_descend _ _ expression _ _ _ Hsplit Hchild) in H.
    apply returned_bindT_Ok in H. destruct H as (field & Hfield & H).
    apply findField_returned in Hfield. subst field.
    apply returned_bindT_Ok in H. destruct H as (value & Hvalue & H).
    destruct (document_findField document fieldSlug) as [f |];
      [| discriminate].
    destruct (value_truthy value).
    + apply returned_bindT_Ok in H. destruct H as (children & _ & H).
      injection H as <-. now exists children.
    + injection H as <-. now exists [].
  - rewrite (resolveSlug_field build false _ expression _ _ _ Hsplit) in H;
      [| now rewrite Hnested].
    apply returned_bindT_Ok in H. destruct H as (field & Hfield & H).
    apply findField_returned in Hfield. subst field.
    injection H as <-. exists []. split; [reflexivity |]. split;
      [reflexivity | discriminate].
Qed.

Lemma parents_within_all (build : Build) (document : Document)
    (expression : string) (slugs : list Js.Value) :
  forall emitted,
    returned (mapT (resolveSlug build false document expression) slugs)
    = Ok emitted ->
    exists emitted',
      returned (mapT (resolveSlug build true document expression) slugs)
      = Ok emitted'
      /\ Subsequence (filter isTruthy (flat_map flatten emitted'))
                     (filter isTruthy (flat_map flatten emitted)).
Proof.
  induction slugs as [| slug slugs IH]; intros emitted Hm.
  - injection Hm as <-. exists []. split; [reflexivity | constructor].
  - rewrite returned_mapT_cons in Hm.
    destruct (returned (resolveSlug build false document expression slug))
      as [first | e] eqn:Hfirst; [| discriminate].
    destruct (returned (mapT (resolveSlug build false document expression)
                          slugs)) as [rest | e]; [| discriminate].
    injection Hm as <-.
    destruct (IH rest eq_refl) as (rest' & Hrest' & Hsub).
    destruct (resolveSlug_all_shape _ _ _ _ _ Hfirst)
      as (s & others & -> & -> & Hfound).
    rewrite returned_mapT_cons, resolveSlug_parents, Hrest'.
    destruct (splitSlug s) as [parentSlug nestedSlug]. cbn [fst snd] in *.
    destruct (nested_truthy nestedSlug).
    + destruct (document_findField document parentSlug) as [field |] eqn:Hfield;
        [| now specialize (Hfound eq_refl)].
      rewrite (findField_found _ _ _ _ _ Hfield), returned_pair.
      exists (EmitArray [Some field] :: rest'). split; [reflexivity |].
      cbn [flat_map flatten app filter isTruthy].
      apply Subsequence_keep. rewrite filter_app.
      apply (Subsequence_app [] _ _ _); [apply Subsequence_nil_l | assumption].
    + exists (EmitNull :: rest'). split; [reflexivity |].
      cbn [flat_map flatten]. rewrite !filter_app.
      apply (Subsequence_app [] _ _ _); [apply Subsequence_nil_l | assumption].
Qed.

(** X11: whenever [dependencies] returns for an object, so does
    [nestedDependencyParents] for the same expression, and the nested
    parents are among the dependencies, in the same order.  This holds in
    either build. *)
Theorem parents_among_dependencies (build : Build) (expressionPath : string)
    (nestedParents : option string) (this : This)
    (fields : list (option Field)) :
  returned (getter (dependencies build expressionPath
                      (mkOptions false nestedParents)) this)
  = Ok fields ->
  exists parents,
    returned (getter (nestedDependencyParents build expressionPath) this)
    = Ok parents
    /\ Subsequence parents fields.
Proof.
  intros H. unfold nestedDependencyParents.
  destruct (get this expressionPath) as [expression |] eqn:Hget.
  - destruct (String.eqb_spec expression "") as [-> | Hnonempty].
    + rewrite (getter_dependencies_empty _ _ _ _ (or_intror Hget)) in H.
      rewrite (getter_dependencies_empty _ _ _ _ (or_intror Hget)).
      cbn [returned ret snd] in H. injection H as <-.
      exists []. split; [reflexivity | constructor].
    + rewrite (getter_dependencies _ _ _ _ _ Hget Hnonempty) in H.
      rewrite (getter_dependencies _ _ _ _ _ Hget Hnonempty).
      unfold traced in *. rewrite returned_bindT, returned_pair in H.
      rewrite returned_bindT, returned_pair.
      destruct (getDependenciesFromJexl (document_jexl (document this))
                  expression) as [slugs | e]; [| discriminate].
      cbn [onlyNestedParents] in *. unfold resolveSlugs in *.
      apply returned_bindT_Ok in H. destruct H as (emitted & Hemitted & H).
      injection H as <-.
      destruct (parents_within_all _ _ _ _ _ Hemitted)
        as (emitted' & Hemitted' & Hsub).
      exists (filter isTruthy (flat_map flatten emitted')).
      split; [| assumption].
      now rewrite returned_bindT, Hemitted'.
  - rewrite (getter_dependencies_empty _ _ _ _ (or_introl Hget)) in H.
    rewrite (getter_dependencies_empty _ _ _ _ (or_introl Hget)).
    cbn [returned ret snd] in H. injection H as <-.
    exists []. split; [reflexivity | constructor].
Qed.

Lemma parents_among_dependencies_witness :
  exists parents,
    returned (getter (nestedDependencyParents Development "jexl")
                (example_this example_document))
    = Ok parents
    /\ Subsequence parents
         [Some foo_field; Some bar_field; Some bar_field;
          Some (column_field "1"); Some (column_field "2");
          Some (column_field "3")].
Proof.
  apply (parents_among_dependencies Development "jexl" None
           (example_this example_document)).
  reflexivity.
Defined.

(** ** Direct identifiers *)

Lemma resolveSlug_direct_found (build : Build) (document : Document)
    (expression slug : string) (field : Field) :
  splitSlug slug = (slug, None) ->
  document_findField document slug = Some field ->
  resolveSlug build false document expression (Str slug)
  = ([CallFindField (document_uuid document) slug],
     Ok (EmitArray [Some field])).
Proof.
  intros Hsplit Hfield.
  rewrite (resolveSlug_field build false _ expression _ _ _ Hsplit eq_refl).
  now rewrite (findField_found _ _ _ _ _ Hfield).
Qed.

(** X14: when all fields are asked for and every identifier is a direct one
    with a field in the document, resolution returns exactly these fields,
    one per identifier and in the order of the identifiers, and looks each
    slug up once, in that order, in either build. *)
Theorem direct_fields_found (build : Build) (document : Document)
    (expression : string) (slugs : list string) (fields : list Field) :
  Forall2 (fun slug field =>
             splitSlug slug = (slug, None)
             /\ document_findField document slug = Some field)
          slugs fields ->
  resolveSlugs build false document expression (map Str slugs)
  = (map (CallFindField (document_uuid document)) slugs,
     Ok (map Some fields)).
Proof.
  intros Hall.
  assert (Hm : mapT (resolveSlug build false document expression)
                 (map Str slugs)
               = (map (CallFindField (document_uuid document)) slugs,
                  Ok (map (fun field => EmitArray [Some field]) fields))).
  { induction Hall as [| slug field slugs fields [Hsplit Hfield] _ IH];
      [reflexivity |].
    cbn [map mapT].
    rewrite (resolveSlug_direct_found _ _ expression _ _ Hsplit Hfield), IH.
    simpl. now rewrite app_nil_r. }
  unfold resolveSlugs. rewrite Hm. simpl. rewrite app_nil_r.
  do 2 f_equal. clear. induction fields as [| field fields IH];
    [reflexivity |].
  simpl. now rewrite IH.
Qed.

Lemma direct_fields_found_witness :
  resolveSlugs Development false example_document example_expression
    (map Str ["bar"; "foo"])
  = ([CallFindField "doc" "bar"; CallFindField "doc" "foo"],
     Ok [Some bar_field; Some foo_field]).
Proof.
  apply (direct_fields_found Development example_document example_expression
           ["bar"; "foo"] [bar_field; foo_field]).
  repeat constructor.
Defined.

(** ** Expressions that read no answer *)

(** X15: transforms none of which is named [answer] or [mapby] yield no slug
    and no error, whatever their arguments are. *)
Theorem no_reads_no_slugs (allTransforms : list Transform) :
  Forall (fun transform =>
            name transform <> "answer" /\ name transform <> "mapby")
         allTransforms ->
  extractDependencies allTransforms = Ok [].
Proof.
  induction 1 as [| transform rest [Hanswer Hmapby] _ IH]; [reflexivity |].
  rewrite <- IH. unfold extractDependencies.
  change (transform :: rest) with ([] ++ transform :: rest).
  rewrite (discoveredSlugs_skip [] rest transform); [reflexivity | |].
  - unfold isAnswerTransform. now apply String.eqb_neq.
  - unfold isMapbyTransform. apply String.eqb_neq in Hmapby. now rewrite Hmapby.
Qed.

Lemma no_reads_no_slugs_witness :
  extractDependencies
    [mkTransform "upper" [Literal (Str "a")]; mkTransform "length" []]
  = Ok [].
Proof.
  apply no_reads_no_slugs.
  repeat constructor; discriminate.
Defined.
